(** * RideAware: the map/form UI of the hazard-reporting prototype

    A shallow embedding of [frontend/src/App.tsx] and
    [frontend/src/translations.ts]: the string helpers the component
    relies on, the category tables, the two asynchronous functions
    [loadReports] and [submit], the CSV export and the event loop of the
    component, followed by the properties of the report contract. *)

From Stdlib Require Import List NArith Bool Arith Lia String Ascii.
From Stdlib Require Import Floats.PrimFloat.
Import ListNotations.

Set Implicit Arguments.
Local Open Scope N_scope.

(** ** JavaScript strings

    A JavaScript string is a sequence of UTF-16 code units; [length] is the
    number of code units ([List.length] here) and [trim] strips the code
    units that ECMAScript calls WhiteSpace or LineTerminator from both
    ends. *)

Module JsString.

Definition jsstring : Type := list N.

(** An ASCII literal of the source, code unit by code unit. *)
Definition lit (s : string) : jsstring :=
  map N_of_ascii (list_ascii_of_string s).

(** [a === b] on two strings. *)
Fixpoint streq (a b : jsstring) : bool :=
  match a, b with
  | [], [] => true
  | x :: a', y :: b' => (x =? y) && streq a' b'
  | _, _ => false
  end.

(** WhiteSpace: TAB, VT, FF, SP, NBSP, ZWNBSP and the Zs category;
    LineTerminator: LF, CR, LS, PS. *)
Definition isWhiteSpace (c : N) : bool :=
  ((9 <=? c) && (c <=? 13))
  || (c =? 32) || (c =? 160) || (c =? 0x1680)
  || ((0x2000 <=? c) && (c <=? 0x200A))
  || (c =? 0x2028) || (c =? 0x2029) || (c =? 0x202F)
  || (c =? 0x205F) || (c =? 0x3000) || (c =? 0xFEFF).

Fixpoint trimStart (s : jsstring) : jsstring :=
  match s with
  | c :: s' => if isWhiteSpace c then trimStart s' else s
  | [] => []
  end.

Definition trimEnd (s : jsstring) : jsstring := rev (trimStart (rev s)).

Definition trim (s : jsstring) : jsstring := trimEnd (trimStart s).

(** Truthiness of a string: every string but the empty one. *)
Definition truthy (s : jsstring) : bool :=
  match s with [] => false | _ => true end.

End JsString.

Import JsString.

(** ** Languages and translations ([translations.ts]) *)

Inductive Language : Type := en | de.

(** The entries of [translations] that the component logic reads. *)
Record Messages : Type := {
  errorLength : jsstring;
  errorNoLocation : jsstring;
  errorSendFailed : jsstring;
  errorBackendUnreachable : jsstring;
  errorLoadReports : jsstring
}.

Definition translations (l : Language) : Messages :=
  match l with
  | en => {|
      errorLength := lit "Text must be between 5 and 150 characters.";
      errorNoLocation := lit "Please select a position on the map first.";
      errorSendFailed := lit "Sending failed.";
      errorBackendUnreachable :=
        lit "Backend unreachable (is FastAPI running on port 8000?).";
      errorLoadReports := lit "Reports could not be loaded." |}
  | de => {|
      errorLength := lit "Text muss zwischen 5 und 150 Zeichen haben.";
      (* U+00E4 is one code unit, 228 *)
      errorNoLocation :=
        lit "Bitte zuerst eine Position auf der Karte ausw" ++ [228]
        ++ lit "hlen.";
      errorSendFailed := lit "Senden fehlgeschlagen.";
      errorBackendUnreachable :=
        lit "Backend nicht erreichbar (l" ++ [228]
        ++ lit "uft FastAPI auf Port 8000?).";
      errorLoadReports := lit "Reports konnten nicht geladen werden." |}
  end.

(** [categoryTranslations]: the own properties of each language's object,
    in source order. *)
Definition categoryTranslations (l : Language) : list (jsstring * jsstring) :=
  match l with
  | en => [ (lit "Hindernis", lit "Obstacle");
            (lit "Gefahrenstelle", lit "Danger Spot");
            (lit "Infrastrukturproblem", lit "Infrastructure Problem");
            (lit "Positives Feedback", lit "Positive Feedback");
            (lit "Spam", lit "Spam") ]
  | de => [ (lit "Hindernis", lit "Hindernis");
            (lit "Gefahrenstelle", lit "Gefahrenstelle");
            (lit "Infrastrukturproblem", lit "Infrastrukturproblem");
            (lit "Positives Feedback", lit "Positives Feedback");
            (lit "Spam", lit "Spam") ]
  end.

(** Own-property lookup in an object literal or a parsed JSON object.  For
    a key that occurs twice the later member wins, as in [JSON.parse]. *)
Fixpoint getOwn {V : Type} (key : jsstring) (members : list (jsstring * V))
  : option V :=
  match members with
  | [] => None
  | (k, v) :: rest =>
      match getOwn key rest with
      | Some v' => Some v'
      | None => if streq k key then Some v else None
      end
  end.

(** ** Constants of [App.tsx] *)

Definition API_BASE : jsstring := lit "http://127.0.0.1:8000".


(** [markerColor]: [category ?? ""] replaces a nullish argument ([None])
    by the empty string before trimming. *)
Definition markerColor (category : option jsstring) : jsstring :=
  let c := trim (match category with Some s => s | None => [] end) in
  if streq c (lit "Hindernis") then lit "#ff5a5f"
  else if streq c (lit "Gefahrenstelle") then lit "#ffb020"
  else if streq c (lit "Infrastrukturproblem") then lit "#2dd4bf"
  else if streq c (lit "Positives Feedback") then lit "#4f8cff"
  else if streq c (lit "Spam") then lit "#94a3b8"
  else lit "#a78bfa".

(** ** JSON values and requests *)

(** A value produced by [JSON.parse].  An object keeps its members in
    document order; numbers are IEEE doubles. *)
#[local] Set Warnings "-register-all".
Inductive json : Type :=
| JNull
| JBool (b : bool)
| JNum (x : float)
| JStr (s : jsstring)
| JArr (items : list json)
| JObj (members : list (jsstring * json)).

(** [v.name] for a property name that no built-in prototype defines (the
    program reads [category] and [detail]): [None] is a TypeError (the
    value is [null]), [Some None] is [undefined]. *)
Definition getProp (v : json) (name : jsstring) : option (option json) :=
  match v with
  | JNull => None
  | JObj members => Some (getOwn name members)
  | _ => Some None
  end.

(** [v?.name]: [undefined] when [v] is [null]. *)
Definition optionalProp (v : json) (name : jsstring) : option json :=
  match getProp v name with
  | None => None
  | Some r => r
  end.

(** [v ?? fallback]: the fallback replaces [undefined] and [null]. *)
Definition coalesce (v : option json) (fallback : json) : json :=
  match v with
  | None | Some JNull => fallback
  | Some d => d
  end.

(** [URLSearchParams]: the list of name-value pairs and its
    [application/x-www-form-urlencoded] serialisation. *)
Module URLSearchParams.

Definition t : Type := list (jsstring * jsstring).

Definition append (params : t) (name value : jsstring) : t :=
  params ++ [(name, value)].

Definition isHighSurrogate (c : N) : bool := (0xD800 <=? c) && (c <=? 0xDBFF).
Definition isLowSurrogate (c : N) : bool := (0xDC00 <=? c) && (c <=? 0xDFFF).

(** Conversion to scalar values: a surrogate pair is one code point, a lone
    surrogate becomes U+FFFD. *)
Fixpoint toScalars (s : jsstring) : list N :=
  match s with
  | [] => []
  | c :: s' =>
      if isHighSurrogate c then
        match s' with
        | d :: s'' =>
            if isLowSurrogate d
            then (0x10000 + (c - 0xD800) * 0x400 + (d - 0xDC00)) :: toScalars s''
            else 0xFFFD :: toScalars s'
        | [] => [0xFFFD]
        end
      else if isLowSurrogate c then 0xFFFD :: toScalars s'
      else c :: toScalars s'
  end.

Definition utf8 (cp : N) : list N :=
  if cp <? 0x80 then [cp]
  else if cp <? 0x800 then [0xC0 + cp / 64; 0x80 + cp mod 64]
  else if cp <? 0x10000 then
    [0xE0 + cp / 4096; 0x80 + (cp / 64) mod 64; 0x80 + cp mod 64]
  else
    [0xF0 + cp / 262144; 0x80 + (cp / 4096) mod 64; 0x80 + (cp / 64) mod 64;
     0x80 + cp mod 64].

Definition hexDigit (d : N) : N := if d <? 10 then 48 + d else 55 + d.

(** One byte of the encoded string: a space becomes [+], the bytes of
    [*-._0-9A-Za-z] stay, every other byte is percent-encoded. *)
Definition encodeByte (b : N) : list N :=
  if b =? 32 then [43]
  else if (b =? 42) || (b =? 45) || (b =? 46) || (b =? 95)
          || ((48 <=? b) && (b <=? 57))
          || ((65 <=? b) && (b <=? 90))
          || ((97 <=? b) && (b <=? 122))
  then [b]
  else [37; hexDigit (b / 16); hexDigit (b mod 16)].

Definition encode (s : jsstring) : jsstring :=
  flat_map encodeByte (flat_map utf8 (toScalars s)).

Fixpoint toString (params : t) : jsstring :=
  match params with
  | [] => []
  | [(n, v)] => encode n ++ [61] ++ encode v
  | (n, v) :: rest => encode n ++ [61] ++ encode v ++ [38] ++ toString rest
  end.

End URLSearchParams.

Inductive method : Type := GET | POST.

(** What [fetch] is called with.  [body] is the value handed to
    [JSON.stringify]; [params] is the query the URL was built from. *)
Record request : Type := {
  req_method : method;
  req_url : jsstring;
  req_params : URLSearchParams.t;
  req_headers : list (jsstring * jsstring);
  req_body : option json
}.

(** A response as the program observes it: [res.ok], and what [res.json()]
    resolves to ([None] when it rejects). *)
Record response : Type := {
  ok : bool;
  body : option json
}.

(** How an awaited [fetch] settles: it rejects, or resolves to a response. *)
Inductive fetch_result : Type :=
| NetworkError
| Resolved (res : response).

(** ** Component state

    The [useState] cells of [App].  [error] holds whatever [setError] was
    given: [null], a message, or the [detail] value of an error response. *)
Record State : Type := {
  language : Language;
  text : jsstring;
  picked : option (float * float);
  reports : list json;
  error : json;
  busy : bool;
  filterCategory : jsstring;
  searchText : jsstring;
  tempSearch : jsstring
}.

Definition initial : State := {|
  language := de; text := []; picked := None; reports := [];
  error := JNull; busy := false;
  filterCategory := []; searchText := []; tempSearch := [] |}.

(** The [useState] setters. *)
Inductive update : Type :=
| SetLanguage (l : Language)
| SetText (s : jsstring)
| SetPicked (p : option (float * float))
| SetReports (l : list json)
| SetError (e : json)
| SetBusy (b : bool)
| SetFilterCategory (c : jsstring)
| SetSearchText (s : jsstring)
| SetTempSearch (s : jsstring).

Definition apply (u : update) (s : State) : State :=
  {| language := match u with SetLanguage l => l | _ => language s end;
     text := match u with SetText x => x | _ => text s end;
     picked := match u with SetPicked p => p | _ => picked s end;
     reports := match u with SetReports l => l | _ => reports s end;
     error := match u with SetError e => e | _ => error s end;
     busy := match u with SetBusy b => b | _ => busy s end;
     filterCategory :=
       match u with SetFilterCategory c => c | _ => filterCategory s end;
     searchText := match u with SetSearchText x => x | _ => searchText s end;
     tempSearch := match u with SetTempSearch x => x | _ => tempSearch s end |}.

(** ** Asynchronous functions

    An [async] function is a tree: it returns, throws, calls a state
    setter, or awaits a [fetch] and continues with whatever the fetch
    settles to. *)
Inductive Task (A : Type) : Type :=
| Ret (a : A)
| Throw
| Act (u : update) (k : Task A)
| Fetch (r : request) (k : fetch_result -> Task A).

Arguments Ret {A} a.
Arguments Throw {A}.
Arguments Act {A} u k.
Arguments Fetch {A} r k.

Fixpoint bind {A B : Type} (t : Task A) (f : A -> Task B) : Task B :=
  match t with
  | Ret a => f a
  | Throw => Throw
  | Act u k => Act u (bind k f)
  | Fetch r k => Fetch r (fun o => bind (k o) f)
  end.

(** [try { t } catch { handler }] and [promise.catch(() => handler)] *)
Fixpoint tryCatch {A : Type} (t : Task A) (handler : Task A) : Task A :=
  match t with
  | Ret a => Ret a
  | Throw => handler
  | Act u k => Act u (tryCatch k handler)
  | Fetch r k => Fetch r (fun o => tryCatch (k o) handler)
  end.

(** [try { t } finally { cleanup }]: the cleanup runs on return and on
    throw, and the outcome of [t] is kept. *)
Fixpoint tryFinally {A : Type} (t : Task A) (cleanup : Task unit) : Task A :=
  match t with
  | Ret a => bind cleanup (fun _ => Ret a)
  | Throw => bind cleanup (fun _ => Throw)
  | Act u k => Act u (tryFinally k cleanup)
  | Fetch r k => Fetch r (fun o => tryFinally (k o) cleanup)
  end.

Declare Scope task_scope.
Delimit Scope task_scope with task.
Notation "x <- t ;; k" := (bind t (fun x => k))
  (at level 61, t at next level, right associativity) : task_scope.
Notation "t ;; k" := (bind t (fun _ => k))
  (at level 61, right associativity) : task_scope.
Local Open Scope task_scope.

Definition setError (e : json) : Task unit := Act (SetError e) (Ret tt).
Definition setBusy (b : bool) : Task unit := Act (SetBusy b) (Ret tt).
Definition setText (s : jsstring) : Task unit := Act (SetText s) (Ret tt).
Definition setReports (l : list json) : Task unit := Act (SetReports l) (Ret tt).

(** [await fetch(...)] *)
Definition fetch (r : request) : Task response :=
  Fetch r (fun o => match o with
                    | NetworkError => Throw
                    | Resolved res => Ret res
                    end).

(** [await res.json()] *)
Definition resJson (res : response) : Task json :=
  match body res with
  | Some v => Ret v
  | None => Throw
  end.

(** A synchronous computation that may throw a TypeError. *)
Definition orThrow {A : Type} (o : option A) : Task A :=
  match o with
  | Some a => Ret a
  | None => Throw
  end.

(** ** [loadReports], [submit] and [exportCSV]

    Each function is a closure of one render: it reads the state [st] of
    that render, while its setter calls act on the state current when they
    run. *)

(** [base + (params.toString() ? '?' + params.toString() : '')] *)
Definition withQuery (base : jsstring) (params : URLSearchParams.t) : jsstring :=
  let q := URLSearchParams.toString params in
  base ++ (if truthy q then lit "?" ++ q else []).

Definition listParams (st : State) : URLSearchParams.t :=
  let params := [] in
  let params :=
    if truthy (filterCategory st)
    then URLSearchParams.append params (lit "category") (filterCategory st)
    else params in
  let params :=
    if truthy (searchText st)
    then URLSearchParams.append params (lit "search") (searchText st)
    else params in
  params.

Definition listRequest (st : State) : request := {|
  req_method := GET;
  req_url := withQuery (API_BASE ++ lit "/reports") (listParams st);
  req_params := listParams st;
  req_headers := [];
  req_body := None |}.

(** [v === "Spam"] for a property value that may be [undefined]. *)
Definition isSpam (v : option json) : bool :=
  match v with
  | Some (JStr s) => streq s (lit "Spam")
  | _ => false
  end.

(** [items.filter((r) => r.category !== "Spam")]: reading [category] off a
    [null] element throws. *)
Fixpoint filterNotSpam (items : list json) : option (list json) :=
  match items with
  | [] => Some []
  | r :: rest =>
      match getProp r (lit "category") with
      | None => None
      | Some c =>
          match filterNotSpam rest with
          | None => None
          | Some kept => Some (if isSpam c then kept else r :: kept)
          end
      end
  end.

(** [data.filter(...)]: only an array has a [filter] method. *)
Definition dataFilter (data : json) : option (list json) :=
  match data with
  | JArr items => filterNotSpam items
  | _ => None
  end.

Definition loadReports (st : State) : Task unit :=
  res <- fetch (listRequest st) ;;
  data <- resJson res ;;
  kept <- orThrow (dataFilter data) ;;
  setReports kept.

(** The body of the [useEffect]:
    [loadReports().catch(() => setError(t.errorLoadReports))]. *)
Definition loadEffect (st : State) : Task unit :=
  tryCatch (loadReports st)
           (setError (JStr (errorLoadReports (translations (language st))))).

Definition postRequest (trimmed : jsstring) (p : float * float) : request := {|
  req_method := POST;
  req_url := API_BASE ++ lit "/reports";
  req_params := [];
  req_headers := [(lit "Content-Type", lit "application/json")];
  req_body := Some (JObj [ (lit "text", JStr trimmed);
                           (lit "latitude", JNum (fst p));
                           (lit "longitude", JNum (snd p));
                           (lit "source", JStr (lit "real")) ]) |}.

(** [trimmed.length < 5 || trimmed.length > 150] *)
Definition badLength (trimmed : jsstring) : bool :=
  (List.length trimmed <? 5)%nat || (150 <? List.length trimmed)%nat.

Definition submit (st : State) : Task unit :=
  let t := translations (language st) in
  setError JNull ;;
  let trimmed := trim (text st) in
  if badLength trimmed then
    setError (JStr (errorLength t))
  else
    match picked st with
    | None => setError (JStr (errorNoLocation t))
    | Some p =>
        setBusy true ;;
        tryFinally
          (tryCatch
             (res <- fetch (postRequest trimmed p) ;;
              if negb (ok res) then
                msg <- tryCatch (resJson res) (Ret JNull) ;;
                setError (coalesce (optionalProp msg (lit "detail"))
                                   (JStr (errorSendFailed t)))
              else
                setText [] ;;
                loadReports st)
             (setError (JStr (errorBackendUnreachable t))))
          (setBusy false)
    end.

(** [exportCSV]: the URL handed to [window.open]. *)
Definition exportParams (st : State) : URLSearchParams.t :=
  let params := [] in
  if truthy (filterCategory st)
  then URLSearchParams.append params (lit "category") (filterCategory st)
  else params.

Definition exportCSV (st : State) : request := {|
  req_method := GET;
  req_url := withQuery (API_BASE ++ lit "/reports/export") (exportParams st);
  req_params := exportParams st;
  req_headers := [];
  req_body := None |}.

(** ** Running a function to completion

    [run t net s] executes [t] from state [s]; the [n]-th fetch it awaits
    settles to [net n].  It returns the final state, the log of setter
    calls and requests in program order, and the outcome ([None] when the
    function throws). *)
Inductive entry : Type :=
| Updated (u : update)
| Sent (r : request).

Fixpoint run {A : Type} (t : Task A) (net : nat -> fetch_result) (s : State)
  : State * list entry * option A :=
  match t with
  | Ret a => (s, [], Some a)
  | Throw => (s, [], None)
  | Act u k =>
      let '(s', log, a) := run k net (apply u s) in
      (s', Updated u :: log, a)
  | Fetch r k =>
      let '(s', log, a) := run (k (net O)) (fun n => net (S n)) s in
      (s', Sent r :: log, a)
  end.

Definition finalState {A : Type} (x : State * list entry * option A) : State :=
  fst (fst x).
Definition logOf {A : Type} (x : State * list entry * option A) : list entry :=
  snd (fst x).

(** The requests of a log, in order. *)
Fixpoint requests (log : list entry) : list request :=
  match log with
  | [] => []
  | Sent r :: rest => r :: requests rest
  | Updated _ :: rest => requests rest
  end.

(** ** The event loop of the component

    Between two events the page is idle: every asynchronous function that
    was started either finished or is suspended at an awaited [fetch].
    [exec] runs a function up to its next [await]. *)
Definition Cont : Type := fetch_result -> Task unit.

Fixpoint exec (t : Task unit) (s : State) : State * option (request * Cont) :=
  match t with
  | Ret _ | Throw => (s, None)
  | Act u k => exec k (apply u s)
  | Fetch r k => (s, Some (r, k))
  end.

(** Which function a suspended continuation belongs to. *)
Inductive origin : Type := FromSubmit | FromEffect.

Record App : Type := {
  ui : State;
  pending : list (origin * Cont);
  sent : list request;
  opened : list request
}.

(** Start or resume a function and park it if it awaits again. *)
Definition spawn (o : origin) (t : Task unit) (a : App) : App :=
  match exec t (ui a) with
  | (s, None) =>
      {| ui := s; pending := pending a; sent := sent a; opened := opened a |}
  | (s, Some (r, k)) =>
      {| ui := s; pending := pending a ++ [(o, k)]; sent := sent a ++ [r];
         opened := opened a |}
  end.

Definition render (u : update) (a : App) : App :=
  {| ui := apply u (ui a); pending := pending a; sent := sent a;
     opened := opened a |}.

(** The setter calls of one synchronous handler, rendered together. *)
Definition renders (us : list update) (a : App) : App :=
  fold_left (fun a' u => render u a') us a.

(** [useEffect(..., [filterCategory, searchText])]: after a render in which
    one of the two changed, the effect of that render runs. *)
Definition afterRender (before : State) (a : App) : App :=
  if streq (filterCategory before) (filterCategory (ui a))
     && streq (searchText before) (searchText (ui a))
  then a
  else spawn FromEffect (loadEffect (ui a)) a.

Fixpoint removeNth {A : Type} (i : nat) (l : list A) : list A :=
  match i, l with
  | _, [] => []
  | O, _ :: l' => l'
  | S i', x :: l' => x :: removeNth i' l'
  end.

(** The synchronous handlers, as the setter calls they make. *)
Definition handleSearch (st : State) : list update :=
  [SetSearchText (tempSearch st)].

Definition clearFilters : list update :=
  [SetFilterCategory []; SetSearchText []; SetTempSearch []].

Definition toggleLanguage (st : State) : list update :=
  [SetLanguage (match language st with en => de | de => en end)].

(** [filterCategory || searchText] *)
Definition activeFilters (st : State) : bool :=
  truthy (filterCategory st) || truthy (searchText st).

(** What can happen to the page: the user types, clicks on the map,
    presses a button, changes a filter control, or an awaited fetch, the
    [i]-th of those in flight, settles. *)
Inductive event : Type :=
| TypeText (s : jsstring)
| PickPosition (lat lng : float)
| ClickSubmit
| ClickExport
| SelectCategory (c : jsstring)
| TypeSearch (s : jsstring)
| RunSearch
| ClickClear
| ToggleLanguage
| Settle (i : nat) (r : fetch_result).

Definition step (a : App) (e : event) : App :=
  match e with
  | TypeText s => render (SetText s) a
  | PickPosition lat lng => render (SetPicked (Some (lat, lng))) a
  | ClickSubmit =>
      (* <button onClick={submit} disabled={busy}> *)
      if busy (ui a) then a else spawn FromSubmit (submit (ui a)) a
  | ClickExport =>
      {| ui := ui a; pending := pending a; sent := sent a;
         opened := opened a ++ [exportCSV (ui a)] |}
  | SelectCategory c => afterRender (ui a) (render (SetFilterCategory c) a)
  | TypeSearch s => render (SetTempSearch s) a
  | RunSearch => afterRender (ui a) (renders (handleSearch (ui a)) a)
  | ClickClear =>
      (* the button is rendered when [activeFilters] *)
      if activeFilters (ui a)
      then afterRender (ui a) (renders clearFilters a)
      else a
  | ToggleLanguage => renders (toggleLanguage (ui a)) a
  | Settle i r =>
      match nth_error (pending a) i with
      | None => a
      | Some (o, k) =>
          spawn o (k r)
                {| ui := ui a; pending := removeNth i (pending a);
                   sent := sent a; opened := opened a |}
      end
  end.

(** The page after mounting: the effect has run once. *)
Definition mounted : App :=
  spawn FromEffect (loadEffect initial)
        {| ui := initial; pending := []; sent := []; opened := [] |}.

Inductive reachable : App -> Prop :=
| reach_mounted : reachable mounted
| reach_step (a : App) (e : event) : reachable a -> reachable (step a e).

Definition steps (a : App) (es : list event) : App := fold_left step es a.

Definition isSubmit (p : origin * Cont) : bool :=
  match fst p with
  | FromSubmit => true
  | FromEffect => false
  end.

(** The number of submissions that are in flight. *)
Definition outstanding (a : App) : nat :=
  List.length (filter isSubmit (pending a)).

(** [r.category === "Spam"] for a displayed report. *)
Definition hasSpamCategory (r : json) : bool :=
  match getProp r (lit "category") with
  | Some c => isSpam c
  | None => false
  end.

(** ** The label sets *)

(** The literal members of the type of [Report.category], in source order
    (the type also admits every other string). *)
Definition reportCategoryLabels : list jsstring :=
  [ lit "Hindernis"; lit "Infrastrukturproblem"; lit "Gefahrenstelle";
    lit "Positives Feedback"; lit "Spam" ].


(** The results of [markerColor], in the order of its cases. *)
Definition markerColors : list jsstring :=
  [ lit "#ff5a5f"; lit "#ffb020"; lit "#2dd4bf"; lit "#4f8cff";
    lit "#94a3b8"; lit "#a78bfa" ].

(** ** Predicates on asynchronous functions *)

(** Every setter call of [t], on every path, satisfies [P]. *)
Fixpoint AllActs {A : Type} (P : update -> Prop) (t : Task A) : Prop :=
  match t with
  | Ret _ | Throw => True
  | Act u k => P u /\ AllActs P k
  | Fetch _ k => forall o, AllActs P (k o)
  end.

(** [t] is started with the busy flag equal to [b]: at every [await] the
    flag is up, and when [t] returns or throws it is down. *)
Fixpoint busyOk {A : Type} (t : Task A) (b : bool) : Prop :=
  match t with
  | Ret _ | Throw => b = false
  | Act u k => busyOk k (match u with SetBusy b' => b' | _ => b end)
  | Fetch _ k => b = true /\ forall o, busyOk (k o) true
  end.

Definition noSpam (l : list json) : Prop :=
  forall r, In r l -> hasSpamCategory r = false.

(** A setter call that keeps Spam out of [reports]. *)
Definition cleanUpdate (u : update) : Prop :=
  match u with
  | SetReports l => noSpam l
  | _ => True
  end.

(** A setter call that is not [setBusy]. *)
Definition quietUpdate (u : update) : Prop :=
  match u with
  | SetBusy _ => False
  | _ => True
  end.

(** A suspended continuation behaves as its origin requires. *)
Definition contOk (p : origin * Cont) : Prop :=
  forall r,
    AllActs cleanUpdate (snd p r)
    /\ match fst p with
       | FromSubmit => busyOk (snd p r) true
       | FromEffect => AllActs quietUpdate (snd p r)
       end.

(** The invariant of the event loop: every suspended function behaves as
    its origin requires, the busy flag counts the submissions in flight,
    and no displayed report is Spam. *)
Definition Inv (a : App) : Prop :=
  Forall contOk (pending a)
  /\ outstanding a = (if busy (ui a) then 1 else 0)%nat
  /\ noSpam (reports (ui a)).

(** ** Outcomes, as the claims word them *)

(** The submission passes the client-side checks and its POST is answered
    with an OK status. *)
Definition submissionSucceeds (st : State) (net : nat -> fetch_result) : bool :=
  negb (badLength (trim (text st)))
  && match picked st with Some _ => true | None => false end
  && match net O with
     | Resolved res => ok res
     | NetworkError => false
     end.

(** A list load fails: the fetch rejects, the body is not JSON, or the
    filter throws on what was parsed. *)
Definition loadFails (o : fetch_result) : bool :=
  match o with
  | NetworkError => true
  | Resolved res =>
      match body res with
      | None => true
      | Some data =>
          match dataFilter data with
          | None => true
          | Some _ => false
          end
      end
  end.

(** The [detail] field of an error response, following the
    specification: the body is a JSON object with a [detail] member that
    carries a value ([null] carries none). *)
Definition detailPerSpec (res : response) : option json :=
  match body res with
  | Some (JObj members) =>
      match getOwn (lit "detail") members with
      | Some JNull => None
      | d => d
      end
  | _ => None
  end.

(** ** Sample states *)

Definition vienna : float * float := (48.25, 16.375)%float.

(** A draft of 151 code units: 146 spaces and then [hello]. *)
Definition paddedDraft : State := {|
  language := de; text := repeat 32 146 ++ lit "hello";
  picked := Some vienna; reports := []; error := JNull; busy := false;
  filterCategory := []; searchText := []; tempSearch := [] |}.

(** A valid draft with a selected position and both filters set. *)
Definition glassDraft : State := {|
  language := en; text := lit "Glass on bike lane at intersection";
  picked := Some vienna;
  reports := [JObj [(lit "id", JNum 1); (lit "category", JStr (lit "Hindernis"))]];
  error := JNull; busy := false;
  filterCategory := lit "Hindernis"; searchText := lit "glass";
  tempSearch := lit "glass" |}.

(** The same draft before a position was picked. *)
Definition unplacedDraft : State := {|
  language := en; text := lit "Glass on bike lane at intersection";
  picked := None; reports := []; error := JNull; busy := false;
  filterCategory := []; searchText := []; tempSearch := [] |}.

(** A draft that is too short. *)
Definition shortDraft : State := {|
  language := de; text := lit " Glas "; picked := Some vienna;
  reports := []; error := JNull; busy := false;
  filterCategory := []; searchText := []; tempSearch := [] |}.

(** Networks: nothing answers; the POST is accepted and the list that
    follows is one Spam report and one obstacle; the POST is accepted and
    the list request fails; the POST is refused with a [detail]. *)
Definition offline : nat -> fetch_result := fun _ => NetworkError.

Definition spamReport : json :=
  JObj [(lit "id", JNum 7); (lit "category", JStr (lit "Spam"))].
Definition obstacleReport : json :=
  JObj [(lit "id", JNum 8); (lit "category", JStr (lit "Hindernis"))].

Definition accepting : nat -> fetch_result := fun n =>
  match n with
  | O => Resolved {| ok := true; body := Some obstacleReport |}
  | _ => Resolved {| ok := true;
                     body := Some (JArr [spamReport; obstacleReport]) |}
  end.

Definition acceptingThenDown : nat -> fetch_result := fun n =>
  match n with
  | O => Resolved {| ok := true; body := Some obstacleReport |}
  | _ => NetworkError
  end.

Definition refusing : nat -> fetch_result := fun _ =>
  Resolved {| ok := false;
              body := Some (JObj [(lit "detail", JStr (lit "too short"))]) |}.

(** Sessions: the first list has arrived; the glass report was typed,
    placed and submitted, and its POST is in flight. *)
Definition loadedPage : App :=
  steps mounted [Settle 0 (accepting 1%nat)].

Definition submittingPage : App :=
  steps mounted
    [ TypeText (lit "Glass on bike lane at intersection");
      PickPosition 48.25 16.375;
      ClickSubmit ].

(** ** Further definitions for the rest of the component *)

(** A string made of WhiteSpace and LineTerminator code units only. *)
Definition allWhiteSpace (s : jsstring) : bool := forallb isWhiteSpace s.


Definition isPost (q : request) : bool :=
  match req_method q with
  | POST => true
  | GET => false
  end.

(** A report object whose [category] is [Spam] with a tab in front. *)
Definition paddedSpamReport : json :=
  JObj [(lit "id", JNum 9); (lit "category", JStr ([9] ++ lit "Spam"))].

(** Every request [t] awaits, on every path, satisfies [P]. *)
Fixpoint AllFetches {A : Type} (P : request -> Prop) (t : Task A) : Prop :=
  match t with
  | Ret _ | Throw => True
  | Act _ k => AllFetches P k
  | Fetch r k => P r /\ forall o, AllFetches P (k o)
  end.

Definition isGet (q : request) : Prop := isPost q = false.

(** A suspended continuation that will send list requests only. *)
Definition getsOnly (p : origin * Cont) : Prop :=
  forall r, AllFetches isGet (snd p r).

(** The number of POST requests the page has sent. *)
Definition posts (a : App) : nat := List.length (filter isPost (sent a)).

(** Whether a click on the submit button sends a POST: the button is
    enabled, the trimmed text has a valid length and a position is
    picked. *)
Definition clickPosts (st : State) : bool :=
  negb (busy st)
  && negb (badLength (trim (text st)))
  && match picked st with Some _ => true | None => false end.

(** The property names every object inherits from [Object.prototype]. *)
Definition objectPrototypeKeys : list jsstring :=
  [ lit "constructor"; lit "hasOwnProperty"; lit "isPrototypeOf";
    lit "propertyIsEnumerable"; lit "toLocaleString"; lit "toString";
    lit "valueOf"; lit "__proto__"; lit "__defineGetter__";
    lit "__defineSetter__"; lit "__lookupGetter__"; lit "__lookupSetter__" ].

(** [ct[r.category] || r.category], the category as the list and the map
    popups show it, for a category that is a string.  [None] stands for a
    member inherited from [Object.prototype], which is no string. *)
Definition translatedCategory (l : Language) (category : jsstring)
  : option jsstring :=
  match getOwn category (categoryTranslations l) with
  | Some v => Some (if truthy v then v else category)
  | None =>
      if existsb (streq category) objectPrototypeKeys
      then None
      else Some category
  end.

(** What is left of the effect once its list request is sent. *)
Definition loadCont (st : State) : Cont := fun o =>
  tryCatch
    (res <- match o with
            | NetworkError => Throw
            | Resolved res => Ret res
            end ;;
     data <- resJson res ;;
     kept <- orThrow (dataFilter data) ;;
     setReports kept)
    (setError (JStr (errorLoadReports (translations (language st))))).

(** A network whose first fetch settles to [first] and the later ones as
    [rest] says. *)
Definition andThen (first : fetch_result) (rest : nat -> fetch_result)
  : nat -> fetch_result :=
  fun n => match n with
           | O => first
           | S n' => rest n'
           end.

(** ** The error banner

    The form renders [{error && (<div ...>{error}</div>)}]: a falsy
    [error] is rendered in place of the box, a truthy one inside it. *)

(** Truthiness of a value. *)
Definition jsTruthy (v : json) : bool :=
  match v with
  | JNull => false
  | JBool b => b
  | JNum x => negb (is_zero x) && negb (is_nan x)
  | JStr s => truthy s
  | JArr _ | JObj _ => true
  end.

(** A text node: a string, or a number printed. *)
Inductive piece : Type :=
| Text (s : jsstring)
| Number (x : float).

(** The text nodes React makes of a child [{v}]: none for [null] and the
    booleans, one for a string or a number, those of its elements for an
    array; a plain object is refused ([None]: the render throws). *)
Fixpoint childNodes (v : json) : option (list piece) :=
  match v with
  | JNull | JBool _ => Some []
  | JNum x => Some [Number x]
  | JStr s => Some [Text s]
  | JArr items =>
      (fix each (l : list json) : option (list piece) :=
         match l with
         | [] => Some []
         | i :: l' =>
             match childNodes i, each l' with
             | Some a, Some b => Some (a ++ b)
             | _, _ => None
             end
         end) items
  | JObj _ => None
  end.

(** What the user sees of [error]: nothing, a falsy number printed
    without the box, the box with its text nodes, or no page at all
    because the render threw. *)
Inductive banner : Type :=
| NoBanner
| LooseNumber (x : float)
| Banner (nodes : list piece)
| RenderError.

Definition errorBanner (e : json) : banner :=
  if jsTruthy e then
    match childNodes e with
    | Some nodes => Banner nodes
    | None => RenderError
    end
  else
    match e with
    | JNum x => LooseNumber x
    | _ => NoBanner
    end.

(** A backend that refuses every request with the given [detail]. *)
Definition refusingWith (detail : json) : nat -> fetch_result := fun _ =>
  Resolved {| ok := false; body := Some (JObj [(lit "detail", detail)]) |}.

(** The [detail] of a request-validation error: a list of objects. *)
Definition validationDetail : json :=
  JArr [ JObj [ (lit "loc", JArr [JStr (lit "body"); JStr (lit "text")]);
                (lit "msg", JStr (lit "String should have at least 5 characters"));
                (lit "type", JStr (lit "string_too_short")) ] ].

(** The glass report is in flight, the category filter is then set to
    [Hindernis], and then the POST is accepted. *)
Definition midFlightPage : App :=
  steps submittingPage
    [ SelectCategory (lit "Hindernis");
      Settle 1 (Resolved {| ok := true; body := None |}) ].

(** * Properties *)

(** ** Strings *)

Lemma streq_refl (a : jsstring) : streq a a = true.
Proof.
  induction a as [|x a IH]; simpl; [reflexivity|].
  now rewrite N.eqb_refl, IH.
Qed.

Lemma streq_eq (a b : jsstring) : streq a b = true <-> a = b.
Proof.
  split.
  - revert b; induction a as [|x a IH]; intros [|y b] H; simpl in H;
      try discriminate; [reflexivity|].
    apply andb_true_iff in H as [Hx Hab].
    apply N.eqb_eq in Hx. apply IH in Hab. now subst.
  - intros ->. apply streq_refl.
Qed.

Lemma streq_neq (a b : jsstring) : streq a b = false <-> a <> b.
Proof.
  rewrite <- streq_eq. destruct (streq a b); split; congruence.
Qed.

Lemma trimStart_length (s : jsstring) :
  (List.length (trimStart s) <= List.length s)%nat.
Proof.
  induction s as [|c s IH]; simpl; [lia|].
  destruct (isWhiteSpace c); simpl; lia.
Qed.

Lemma trim_length (s : jsstring) :
  (List.length (trim s) <= List.length s)%nat.
Proof.
  unfold trim, trimEnd. rewrite length_rev.
  etransitivity; [apply trimStart_length|].
  rewrite length_rev. apply trimStart_length.
Qed.

(** Case analysis on one comparison of a [switch]. *)
Ltac case_streq a b :=
  let E := fresh "E" in
  destruct (streq a b) eqn:E;
  [apply streq_eq in E | apply streq_neq in E].

(** The cases of [markerColor], read off the trimmed argument. *)
Lemma markerColor_cases (category : jsstring) :
  let c := trim category in
  (c = lit "Hindernis" /\ markerColor (Some category) = lit "#ff5a5f")
  \/ (c = lit "Gefahrenstelle" /\ markerColor (Some category) = lit "#ffb020")
  \/ (c = lit "Infrastrukturproblem"
      /\ markerColor (Some category) = lit "#2dd4bf")
  \/ (c = lit "Positives Feedback"
      /\ markerColor (Some category) = lit "#4f8cff")
  \/ (c = lit "Spam" /\ markerColor (Some category) = lit "#94a3b8")
  \/ (~ In c reportCategoryLabels
      /\ markerColor (Some category) = lit "#a78bfa").
Proof.
  intro c. unfold markerColor. fold c.
  case_streq c (lit "Hindernis"); [now left|right].
  case_streq c (lit "Gefahrenstelle"); [now left|right].
  case_streq c (lit "Infrastrukturproblem"); [now left|right].
  case_streq c (lit "Positives Feedback"); [now left|right].
  case_streq c (lit "Spam"); [now left|right].
  split; [|reflexivity].
  intros [H|[H|[H|[H|[H|[]]]]]]; congruence.
Qed.

Lemma markerColors_NoDup : NoDup markerColors.
Proof.
  unfold markerColors.
  repeat (constructor;
          [intro H; vm_compute in H;
           repeat (destruct H as [H|H]; [discriminate H|]); exact H|]).
  constructor.
Qed.

Ltac lit_neq H := vm_compute in H; discriminate H.

(** C10: [markerColor] is a total function into six fixed, pairwise
    distinct colour strings.  Each of the five category labels, once the
    surrounding whitespace of the argument is trimmed, has its own colour,
    and every other argument, the empty string included, gets the fallback
    purple. *)
Theorem markerColor_total (category : jsstring) :
  In (markerColor (Some category)) markerColors
  /\ NoDup markerColors
  /\ List.length markerColors = 6%nat
  /\ (trim category = lit "Hindernis"
      -> markerColor (Some category) = lit "#ff5a5f")
  /\ (trim category = lit "Gefahrenstelle"
      -> markerColor (Some category) = lit "#ffb020")
  /\ (trim category = lit "Infrastrukturproblem"
      -> markerColor (Some category) = lit "#2dd4bf")
  /\ (trim category = lit "Positives Feedback"
      -> markerColor (Some category) = lit "#4f8cff")
  /\ (trim category = lit "Spam"
      -> markerColor (Some category) = lit "#94a3b8")
  /\ (~ In (trim category) reportCategoryLabels
      -> markerColor (Some category) = lit "#a78bfa")
  /\ markerColor (Some []) = lit "#a78bfa".
Proof.
  pose proof (markerColor_cases category) as H. cbv zeta in H.
  split; [|split; [apply markerColors_NoDup|split; [reflexivity|]]].
  - destruct H as [[_ ->]|[[_ ->]|[[_ ->]|[[_ ->]|[[_ ->]|[_ ->]]]]]];
      unfold markerColors; simpl; tauto.
  - repeat split; try reflexivity; intro Hc;
      destruct H as [[E M]|[[E M]|[[E M]|[[E M]|[[E M]|[E M]]]]]];
      try exact M;
      try (rewrite Hc in E; lit_neq E);
      try (exfalso; apply E; rewrite Hc; unfold reportCategoryLabels;
           simpl; tauto);
      exfalso; apply Hc; rewrite E; unfold reportCategoryLabels; simpl; tauto.
Qed.

Lemma getOwn_In {V : Type} (key : jsstring) (members : list (jsstring * V)) :
  getOwn key members <> None <-> In key (map fst members).
Proof.
  induction members as [|[k v] rest IH]; simpl.
  - split; [congruence|tauto].
  - destruct (getOwn key rest) as [v'|].
    + split; [intros _; right; apply IH; congruence|congruence].
    + case_streq k key.
      * split; [now left|congruence].
      * split; [congruence|].
        intros [H|H]; [contradiction|]. apply IH in H. congruence.
Qed.



(** ** The model on concrete inputs *)

Example trim_both_ends :
  trim ([9; 32] ++ lit "Glas auf dem Radweg" ++ [160; 10])
  = lit "Glas auf dem Radweg".
Proof. reflexivity. Qed.

Example markerColor_padded_spam :
  markerColor (Some (lit " Spam ")) = lit "#94a3b8".
Proof. reflexivity. Qed.

Example markerColor_nullish : markerColor None = lit "#a78bfa".
Proof. reflexivity. Qed.

Example encode_reserved :
  URLSearchParams.encode (lit "Glas & Co" ++ [228; 126])
  = lit "Glas+%26+Co%C3%A4%7E".
Proof. reflexivity. Qed.

Example listRequest_url :
  req_url (listRequest glassDraft)
  = lit "http://127.0.0.1:8000/reports?category=Hindernis&search=glass".
Proof. reflexivity. Qed.

Example exportCSV_url :
  req_url (exportCSV glassDraft)
  = lit "http://127.0.0.1:8000/reports/export?category=Hindernis".
Proof. reflexivity. Qed.

Example submit_accepted :
  requests (logOf (run (submit glassDraft) accepting glassDraft))
  = [ postRequest (lit "Glass on bike lane at intersection") vienna;
      listRequest glassDraft ]
  /\ reports (finalState (run (submit glassDraft) accepting glassDraft))
     = [obstacleReport]
  /\ text (finalState (run (submit glassDraft) accepting glassDraft)) = []
  /\ busy (finalState (run (submit glassDraft) accepting glassDraft)) = false.
Proof. repeat split. Qed.

Example submit_refused :
  error (finalState (run (submit glassDraft) refusing glassDraft))
  = JStr (lit "too short")
  /\ text (finalState (run (submit glassDraft) refusing glassDraft))
     = text glassDraft.
Proof. repeat split. Qed.

(** ** Requests *)

Lemma listParams_eq (st : State) :
  listParams st
  = (if truthy (filterCategory st)
     then [(lit "category", filterCategory st)] else [])
    ++ (if truthy (searchText st)
        then [(lit "search", searchText st)] else []).
Proof.
  unfold listParams, URLSearchParams.append.
  destruct (truthy (filterCategory st)), (truthy (searchText st));
    reflexivity.
Qed.

(** Without filters the list request goes to the bare [/reports] URL, as
    in the variant of the component that has no filter controls. *)
Lemma listRequest_unfiltered (st : State) :
  filterCategory st = [] -> searchText st = [] ->
  req_url (listRequest st) = API_BASE ++ lit "/reports"
  /\ req_params (listRequest st) = [].
Proof.
  intros Hf Hs. unfold listRequest, listParams, withQuery.
  cbn [req_url req_params]. rewrite Hf, Hs. cbn [truthy].
  split; [|reflexivity]. cbn [URLSearchParams.toString truthy].
  now rewrite app_nil_r.
Qed.

(** C8: the export URL is built from the category filter alone.  Its query
    has the [category] parameter exactly when a filter is active, with the
    value the list request carries, and never a [search] parameter. *)
Theorem exportCSV_filters_by_category_only (st : State) :
  req_params (exportCSV st)
  = (if truthy (filterCategory st)
     then [(lit "category", filterCategory st)] else [])
  /\ getOwn (lit "category") (req_params (exportCSV st))
     = getOwn (lit "category") (req_params (listRequest st))
  /\ (getOwn (lit "category") (req_params (exportCSV st)) <> None
      <-> filterCategory st <> [])
  /\ ~ In (lit "search") (map fst (req_params (exportCSV st)))
  /\ (In (lit "search") (map fst (req_params (listRequest st)))
      <-> searchText st <> [])
  /\ req_url (exportCSV st)
     = API_BASE ++ lit "/reports/export"
       ++ (if truthy (filterCategory st)
           then lit "?category=" ++ URLSearchParams.encode (filterCategory st)
           else []).
Proof.
  unfold exportCSV, listRequest; cbn [req_params req_url].
  rewrite listParams_eq. unfold exportParams, URLSearchParams.append.
  destruct (filterCategory st) as [|c f] eqn:Ef;
    destruct (searchText st) as [|d x] eqn:Ex;
    cbn [truthy app map fst];
    (repeat split; try reflexivity; try congruence; try tauto;
     try (intros _; vm_compute; discriminate);
     try (intros [H|H]; [lit_neq H|destruct H]);
     try (intros [H|[H|H]]; [lit_neq H|congruence|destruct H]);
     try (intros _; left; reflexivity);
     try (intros _; right; left; reflexivity)).
Qed.

(** ** [submit], run to completion *)

Lemma badLength_false (t : jsstring) :
  badLength t = false <-> (5 <= List.length t <= 150)%nat.
Proof.
  unfold badLength. rewrite orb_false_iff, !Nat.ltb_ge. tauto.
Qed.

Lemma badLength_true (t : jsstring) :
  badLength t = true <-> (List.length t < 5 \/ 150 < List.length t)%nat.
Proof.
  unfold badLength. rewrite orb_true_iff, !Nat.ltb_lt. tauto.
Qed.

(** Symbolic execution of the functions of the component. *)
Ltac run_async :=
  cbn [run exec bind tryCatch tryFinally fetch resJson orThrow
       setError setBusy setText setReports loadReports loadEffect
       ok body negb finalState logOf requests fst snd].

Lemma run_submit_bad_length (st s : State) (net : nat -> fetch_result) :
  badLength (trim (text st)) = true ->
  run (submit st) net s
  = (apply (SetError (JStr (errorLength (translations (language st)))))
           (apply (SetError JNull) s),
     [Updated (SetError JNull);
      Updated (SetError (JStr (errorLength (translations (language st)))))],
     Some tt).
Proof. intro H. unfold submit. rewrite H. reflexivity. Qed.

Lemma run_submit_no_position (st s : State) (net : nat -> fetch_result) :
  badLength (trim (text st)) = false ->
  picked st = None ->
  run (submit st) net s
  = (apply (SetError (JStr (errorNoLocation (translations (language st)))))
           (apply (SetError JNull) s),
     [Updated (SetError JNull);
      Updated (SetError (JStr (errorNoLocation (translations (language st)))))],
     Some tt).
Proof. intros H Hp. unfold submit. rewrite H, Hp. reflexivity. Qed.

(** C1, as the code has it: the length that is checked is that of the
    trimmed text.  When the trimmed text has fewer than 5 or more than 150
    code units, and so whenever the text itself has fewer than 5, [submit]
    sets the length error, leaves the busy flag alone and sends nothing. *)
Theorem submit_rejects_bad_length (st : State) (net : nat -> fetch_result) :
  (List.length (trim (text st)) < 5
   \/ 150 < List.length (trim (text st))
   \/ List.length (text st) < 5)%nat ->
  requests (logOf (run (submit st) net st)) = []
  /\ error (finalState (run (submit st) net st))
     = JStr (errorLength (translations (language st)))
  /\ busy (finalState (run (submit st) net st)) = busy st.
Proof.
  intro H.
  assert (Hb : badLength (trim (text st)) = true).
  { apply badLength_true. pose proof (trim_length (text st)). lia. }
  rewrite (run_submit_bad_length st st net Hb). repeat split.
Qed.

(** C1, witness: the draft [" Glas "], which trims to four code units. *)
Lemma submit_rejects_bad_length_witness :
  (List.length (trim (text shortDraft)) < 5)%nat
  /\ requests (logOf (run (submit shortDraft) offline shortDraft)) = []
  /\ error (finalState (run (submit shortDraft) offline shortDraft))
     = JStr (errorLength (translations de)).
Proof.
  split.
  - vm_compute. repeat constructor.
  - refine (let H := submit_rejects_bad_length shortDraft offline _ in
            conj (proj1 H) (proj1 (proj2 H))).
    left. vm_compute. repeat constructor.
Defined.

(** C1, counterexample: a text of 151 code units, 146 spaces followed by
    [hello], passes the check and is posted (trimmed). *)
Lemma padded_long_text_is_posted :
  (150 < List.length (text paddedDraft))%nat
  /\ requests (logOf (run (submit paddedDraft) offline paddedDraft))
     = [postRequest (lit "hello") vienna]
  /\ error (finalState (run (submit paddedDraft) offline paddedDraft))
     <> JStr (errorLength (translations (language paddedDraft))).
Proof.
  split; [vm_compute; repeat constructor|].
  split; [vm_compute; reflexivity|].
  intro H. vm_compute in H. discriminate H.
Qed.

(** C5: without a selected position [submit] sends nothing and leaves
    the busy flag alone, whatever the text; when the text has a valid
    length (trimmed, 5 to 150 code units) the error it sets is the
    no-location message, and the length message otherwise. *)
Theorem submit_rejects_missing_position
  (st : State) (net : nat -> fetch_result) :
  picked st = None ->
  requests (logOf (run (submit st) net st)) = []
  /\ busy (finalState (run (submit st) net st)) = busy st
  /\ ((5 <= List.length (trim (text st)) <= 150)%nat ->
      error (finalState (run (submit st) net st))
      = JStr (errorNoLocation (translations (language st))))
  /\ (~ (5 <= List.length (trim (text st)) <= 150)%nat ->
      error (finalState (run (submit st) net st))
      = JStr (errorLength (translations (language st)))).
Proof.
  intros Hp. rewrite <- badLength_false.
  destruct (badLength (trim (text st))) eqn:Hb.
  - rewrite (run_submit_bad_length st st net Hb).
    repeat split; congruence.
  - rewrite (run_submit_no_position st st net Hb Hp).
    repeat split; congruence.
Qed.

(** C5, witness: the glass report before a position was picked. *)
Lemma submit_rejects_missing_position_witness :
  picked unplacedDraft = None
  /\ requests (logOf (run (submit unplacedDraft) accepting unplacedDraft)) = []
  /\ error (finalState (run (submit unplacedDraft) accepting unplacedDraft))
     = JStr (errorNoLocation (translations en)).
Proof.
  split; [reflexivity|].
  refine (let H := submit_rejects_missing_position unplacedDraft accepting
                     eq_refl in
          conj (proj1 H) (proj1 (proj2 (proj2 H)) _)).
  vm_compute. split; repeat constructor.
Defined.

Lemma coalesce_detail (res : response) (fallback : json) :
  coalesce (match body res with
            | Some msg => optionalProp msg (lit "detail")
            | None => optionalProp JNull (lit "detail")
            end) fallback
  = match detailPerSpec res with
    | Some d => d
    | None => fallback
    end.
Proof.
  unfold detailPerSpec. destruct (body res) as [[| | | | |members]|];
    try reflexivity.
  unfold optionalProp, getProp.
  destruct (getOwn (lit "detail") members) as [[]|]; reflexivity.
Qed.

Lemma messages_distinct (l : Language) :
  errorBackendUnreachable (translations l) <> errorSendFailed (translations l)
  /\ errorBackendUnreachable (translations l)
     <> errorLength (translations l)
  /\ errorBackendUnreachable (translations l)
     <> errorLoadReports (translations l).
Proof. destruct l; repeat split; intro H; lit_neq H. Qed.

(** The [error] cell after a submission that reached the network: a
    non-OK response sets it to the [detail] value of the JSON body when
    that is present and not [null], and to the send-failed message
    otherwise; a rejected fetch sets the backend-unreachable message. *)
Theorem submit_error_of_response
  (st : State) (net : nat -> fetch_result) (p : float * float) :
  (5 <= List.length (trim (text st)) <= 150)%nat ->
  picked st = Some p ->
  (forall res, net O = Resolved res -> ok res = false ->
     error (finalState (run (submit st) net st))
     = match detailPerSpec res with
       | Some d => d
       | None => JStr (errorSendFailed (translations (language st)))
       end)
  /\ (net O = NetworkError ->
      error (finalState (run (submit st) net st))
      = JStr (errorBackendUnreachable (translations (language st))))
  /\ errorBackendUnreachable (translations (language st))
     <> errorSendFailed (translations (language st)).
Proof.
  intros Hl Hp. apply badLength_false in Hl.
  split; [|split; [|apply messages_distinct]].
  - intros res H0 Hok. rewrite <- coalesce_detail.
    unfold submit. rewrite Hl, Hp. run_async.
    rewrite H0. run_async. rewrite Hok. cbn [negb]. unfold resJson.
    destruct (body res) as [msg|]; run_async; reflexivity.
  - intros H0. unfold submit. rewrite Hl, Hp. run_async.
    rewrite H0. run_async. reflexivity.
Qed.

(** The glass report refused with a [detail], and sent while nothing
    answers. *)
Lemma submit_error_of_response_witness :
  error (finalState (run (submit glassDraft) refusing glassDraft))
  = JStr (lit "too short")
  /\ error (finalState (run (submit glassDraft) offline glassDraft))
     = JStr (errorBackendUnreachable (translations en)).
Proof.
  assert (Hl : (5 <= List.length (trim (text glassDraft)) <= 150)%nat)
    by (vm_compute; split; repeat constructor).
  split.
  - exact (proj1 (submit_error_of_response glassDraft refusing Hl eq_refl)
                 _ eq_refl eq_refl).
  - exact (proj1 (proj2 (submit_error_of_response glassDraft offline Hl
                           eq_refl)) eq_refl).
Defined.

Lemma messages_truthy (l : Language) :
  truthy (errorSendFailed (translations l)) = true
  /\ truthy (errorBackendUnreachable (translations l)) = true.
Proof. destruct l; split; reflexivity. Qed.

(** When the specification's reading finds no [detail]: the body is not
    JSON, is not an object, has no [detail] member or has a [null] one. *)
Lemma detailPerSpec_None (res : response) :
  detailPerSpec res = None
  <-> body res = None
      \/ (exists v, body res = Some v /\ forall members, v <> JObj members)
      \/ (exists members,
            body res = Some (JObj members)
            /\ (getOwn (lit "detail") members = None
                \/ getOwn (lit "detail") members = Some JNull)).
Proof.
  unfold detailPerSpec. destruct (body res) as [v|].
  2:{ split; [now left|reflexivity]. }
  destruct v as [| | | | |members];
    try (split; [intros _; right; left; eexists; split;
                 [reflexivity|discriminate]|reflexivity]).
  split.
  - intro H. right; right. exists members. split; [reflexivity|].
    destruct (getOwn (lit "detail") members) as [[]|]; try discriminate;
      tauto.
  - intros [H|[(v & E & H)|(m & E & H)]]; [discriminate| |].
    + inversion E; subst. now elim (H members).
    + inversion E; subst. destruct H as [-> | ->]; reflexivity.
Qed.

(** C6, as the code has it: for a submission that reaches the network, a
    non-OK response sets [error] to the [detail] of the JSON body when it
    is present and not [null], and the banner shows exactly that detail
    when it is a non-empty string; without such a detail the banner shows
    exactly the send-failed message; when the fetch rejects it shows
    exactly the backend-unreachable message, which differs from the
    send-failed one. *)
Theorem submit_error_banner
  (st : State) (net : nat -> fetch_result) (p : float * float) :
  (5 <= List.length (trim (text st)) <= 150)%nat ->
  picked st = Some p ->
  (forall res, net O = Resolved res -> ok res = false ->
     (forall d, detailPerSpec res = Some d ->
                error (finalState (run (submit st) net st)) = d)
     /\ (forall d, detailPerSpec res = Some (JStr d) -> d <> [] ->
                   errorBanner (error (finalState (run (submit st) net st)))
                   = Banner [Text d])
     /\ (detailPerSpec res = None ->
         errorBanner (error (finalState (run (submit st) net st)))
         = Banner [Text (errorSendFailed (translations (language st)))]))
  /\ (net O = NetworkError ->
      errorBanner (error (finalState (run (submit st) net st)))
      = Banner [Text (errorBackendUnreachable (translations (language st)))])
  /\ errorBackendUnreachable (translations (language st))
     <> errorSendFailed (translations (language st)).
Proof.
  intros Hl Hp.
  destruct (submit_error_of_response st net Hl Hp) as (Hr & Hn & Hd).
  destruct (messages_truthy (language st)) as [Ts Tu].
  split; [|split; [|exact Hd]].
  - intros res H0 Hok. specialize (Hr res H0 Hok).
    split; [|split].
    + intros d E. now rewrite Hr, E.
    + intros d E Hd'. rewrite Hr, E. unfold errorBanner.
      cbn [jsTruthy childNodes]. destruct d; [now elim Hd'|reflexivity].
    + intro E. rewrite Hr, E. unfold errorBanner.
      cbn [jsTruthy childNodes]. now rewrite Ts.
  - intro H0. rewrite (Hn H0). unfold errorBanner.
    cbn [jsTruthy childNodes]. now rewrite Tu.
Qed.

(** C6, witness: the glass report refused with the detail [too short],
    and sent while nothing answers. *)
Lemma submit_error_banner_witness :
  errorBanner (error (finalState (run (submit glassDraft) refusing glassDraft)))
  = Banner [Text (lit "too short")]
  /\ errorBanner (error (finalState (run (submit glassDraft) offline glassDraft)))
     = Banner [Text (errorBackendUnreachable (translations en))].
Proof.
  assert (Hl : (5 <= List.length (trim (text glassDraft)) <= 150)%nat)
    by (vm_compute; split; repeat constructor).
  pose proof (@submit_error_banner glassDraft refusing vienna Hl eq_refl)
    as H1.
  pose proof (@submit_error_banner glassDraft offline vienna Hl eq_refl)
    as H2.
  split.
  - refine (proj1 (proj2 (proj1 H1 _ eq_refl eq_refl)) (lit "too short")
                  eq_refl _).
    discriminate.
  - exact (proj1 (proj2 H2) eq_refl).
Defined.

(** C6, counterexample: the glass report is refused with a [detail]
    that is present and yet not shown.  A list of validation errors makes
    the render throw; an empty string and [false] show no banner; and a
    [null] detail shows the send-failed message instead. *)
Lemma present_detail_is_not_shown :
  error (finalState (run (submit glassDraft) (refusingWith validationDetail)
                         glassDraft))
  = validationDetail
  /\ errorBanner validationDetail = RenderError
  /\ errorBanner
       (error (finalState (run (submit glassDraft) (refusingWith (JStr []))
                               glassDraft)))
     = NoBanner
  /\ errorBanner
       (error (finalState (run (submit glassDraft)
                               (refusingWith (JBool false)) glassDraft)))
     = NoBanner
  /\ errorBanner
       (error (finalState (run (submit glassDraft) (refusingWith JNull)
                               glassDraft)))
     = Banner [Text (errorSendFailed (translations en))].
Proof. repeat split. Qed.

(** The outcome of [loadReports]: it fails and touches nothing, or it
    stores the filtered list. *)
Lemma run_loadReports (st s : State) (net : nat -> fetch_result) :
  run (loadReports st) net s
  = match net O with
    | Resolved {| ok := _; body := Some data |} =>
        match dataFilter data with
        | Some kept =>
            (apply (SetReports kept) s,
             [Sent (listRequest st); Updated (SetReports kept)], Some tt)
        | None => (s, [Sent (listRequest st)], None)
        end
    | _ => (s, [Sent (listRequest st)], None)
    end.
Proof.
  unfold loadReports. run_async.
  destruct (net O) as [|[o [data|]]]; run_async; try reflexivity.
  destruct (dataFilter data); reflexivity.
Qed.

Lemma run_loadReports_fails (st s : State) (net : nat -> fetch_result) :
  loadFails (net O) = true ->
  run (loadReports st) net s = (s, [Sent (listRequest st)], None).
Proof.
  intro H. rewrite run_loadReports. unfold loadFails in H.
  destruct (net O) as [|[o [data|]]]; try reflexivity.
  cbn [body] in H. destruct (dataFilter data); [discriminate|reflexivity].
Qed.

(** C9, as the code has it: [submit] is a closure of the render in which
    it was clicked.  When the submission succeeds (the checks pass and the
    POST is answered OK), [submit] clears the text and then sends one list
    request and nothing after it; the URL of that request is built from
    the category filter and the search text of the click-time render
    [st], whatever the page state [s] has become while the POST was in
    flight.  When the submission does not succeed, [submit] leaves the
    text alone and sends no list request. *)
Theorem submit_reloads_with_click_time_filters
  (st s : State) (net : nat -> fetch_result) :
  (if submissionSucceeds st net
   then text (finalState (run (submit st) net s)) = []
        /\ (exists p rest,
              picked st = Some p
              /\ logOf (run (submit st) net s)
                 = [ Updated (SetError JNull); Updated (SetBusy true);
                     Sent (postRequest (trim (text st)) p);
                     Updated (SetText []); Sent (listRequest st) ] ++ rest
              /\ requests rest = [])
   else text (finalState (run (submit st) net s)) = text s
        /\ Forall (fun q => req_method q = POST)
                  (requests (logOf (run (submit st) net s))))
  /\ req_method (listRequest st) = GET
  /\ req_url (listRequest st)
     = API_BASE ++ lit "/reports"
       ++ match filterCategory st, searchText st with
          | [], [] => []
          | [], _ :: _ =>
              lit "?search=" ++ URLSearchParams.encode (searchText st)
          | _ :: _, [] =>
              lit "?category=" ++ URLSearchParams.encode (filterCategory st)
          | _ :: _, _ :: _ =>
              lit "?category=" ++ URLSearchParams.encode (filterCategory st)
              ++ lit "&search=" ++ URLSearchParams.encode (searchText st)
          end
  /\ (forall p,
        picked st = Some p ->
        badLength (trim (text st)) = false ->
        exists k,
          exec (submit st) s
          = (apply (SetBusy true) (apply (SetError JNull) s),
             Some (postRequest (trim (text st)) p, k))
          /\ forall s' res,
               ok res = true ->
               exists k',
                 exec (k (Resolved res)) s'
                 = (apply (SetText []) s', Some (listRequest st, k'))).
Proof.
  split; [|split; [reflexivity|split]].
  - unfold submissionSucceeds.
    destruct (badLength (trim (text st))) eqn:Hb; cbn [negb andb].
    { rewrite run_submit_bad_length by assumption. split; [reflexivity|].
      constructor. }
    destruct (picked st) as [p|] eqn:Hp; cbn [andb].
    2:{ rewrite run_submit_no_position by assumption. split; [reflexivity|].
        constructor. }
    unfold submit. rewrite Hb, Hp. run_async.
    destruct (net O) as [|[o b]] eqn:H0; run_async.
    { split; [reflexivity|]. repeat constructor. }
    destruct o; cbn [negb]; run_async.
    + split.
      * destruct (net 1%nat) as [|[o1 [data|]]]; run_async; try reflexivity.
        destruct (dataFilter data); reflexivity.
      * exists p.
        destruct (net 1%nat) as [|[o1 [data|]]]; run_async;
          try (eexists; split; [reflexivity|split; reflexivity]).
        destruct (dataFilter data);
          (eexists; split; [reflexivity|split; reflexivity]).
    + unfold resJson. destruct b as [msg|]; run_async;
        (split; [reflexivity|repeat constructor]).
  - unfold listRequest, withQuery. cbn [req_url]. rewrite listParams_eq.
    rewrite <- app_assoc. f_equal. f_equal.
    destruct (filterCategory st) as [|c f], (searchText st) as [|d x];
      cbn [truthy app]; reflexivity.
  - intros p Hp Hb. unfold submit. rewrite Hb, Hp. run_async.
    eexists. split; [reflexivity|].
    intros s' res Hok. run_async. rewrite Hok. cbn [negb]. run_async.
    eexists. reflexivity.
Qed.

(** C9, counterexample: the glass report is submitted without a filter;
    while its POST is in flight the category filter is set to
    [Hindernis]; then the POST is accepted.  The reload that follows goes
    to the bare [/reports] URL of the click-time render, not to the URL
    of the filter that is active by then. *)
Lemma reload_ignores_filter_set_in_flight :
  filterCategory (ui midFlightPage) = lit "Hindernis"
  /\ text (ui midFlightPage) = []
  /\ map (fun q => (req_method q, req_url q)) (sent midFlightPage)
     = [ (GET, lit "http://127.0.0.1:8000/reports");
         (POST, lit "http://127.0.0.1:8000/reports");
         (GET, lit "http://127.0.0.1:8000/reports?category=Hindernis");
         (GET, lit "http://127.0.0.1:8000/reports") ]
  /\ req_url (listRequest (ui midFlightPage))
     = lit "http://127.0.0.1:8000/reports?category=Hindernis"
  /\ last (sent midFlightPage) (listRequest (ui midFlightPage))
     <> listRequest (ui midFlightPage).
Proof.
  repeat split. intro H. apply (f_equal req_url) in H.
  vm_compute in H. discriminate H.
Qed.

(** C7, as the code has it: a failed list load never touches [reports].
    When the load was started by the effect, the load-error message is
    set; when it is the reload after an accepted POST, [submit] sets the
    backend-unreachable message. *)
Theorem failed_load_keeps_reports
  (st s : State) (net : nat -> fetch_result) :
  loadFails (net O) = true ->
  (reports (finalState (run (loadEffect st) net s)) = reports s
   /\ error (finalState (run (loadEffect st) net s))
      = JStr (errorLoadReports (translations (language st))))
  /\ (forall res p,
        ok res = true ->
        picked st = Some p ->
        (5 <= List.length (trim (text st)) <= 150)%nat ->
        let net' := fun n => match n with
                             | O => Resolved res
                             | S n' => net n'
                             end in
        reports (finalState (run (submit st) net' st)) = reports st
        /\ error (finalState (run (submit st) net' st))
           = JStr (errorBackendUnreachable (translations (language st)))).
Proof.
  intro Hf. split.
  - unfold loadEffect, loadReports. run_async.
    unfold loadFails in Hf.
    destruct (net O) as [|[o [data|]]]; run_async; try (split; reflexivity).
    cbn [body] in Hf.
    destruct (dataFilter data); [discriminate|split; reflexivity].
  - intros res p Hok Hp Hl net'. apply badLength_false in Hl.
    subst net'. unfold submit. rewrite Hl, Hp. run_async.
    rewrite Hok. cbn [negb]. run_async.
    unfold loadFails in Hf.
    destruct (net O) as [|[o [data|]]]; run_async; try (split; reflexivity).
    cbn [body] in Hf.
    destruct (dataFilter data); [discriminate|split; reflexivity].
Qed.

(** C7, witness: the list request fails because nothing answers. *)
Lemma failed_load_keeps_reports_witness :
  loadFails (offline O) = true
  /\ reports (finalState (run (loadEffect glassDraft) offline glassDraft))
     = reports glassDraft
  /\ error (finalState (run (loadEffect glassDraft) offline glassDraft))
     = JStr (errorLoadReports (translations en)).
Proof.
  split; [reflexivity|].
  exact (proj1 (failed_load_keeps_reports glassDraft glassDraft offline
                  eq_refl)).
Defined.

(** C7, counterexample: the POST of the glass report is accepted and the
    reload fails; the message set is the backend-unreachable one, not the
    load-error one. *)
Lemma failed_reload_sets_backend_unreachable :
  submissionSucceeds glassDraft acceptingThenDown = true
  /\ loadFails (acceptingThenDown 1%nat) = true
  /\ error (finalState (run (submit glassDraft) acceptingThenDown glassDraft))
     = JStr (errorBackendUnreachable (translations en))
  /\ error (finalState (run (submit glassDraft) acceptingThenDown glassDraft))
     <> JStr (errorLoadReports (translations en))
  /\ reports (finalState (run (submit glassDraft) acceptingThenDown glassDraft))
     = reports glassDraft.
Proof.
  repeat split; try (vm_compute; reflexivity).
  intro H. vm_compute in H. discriminate H.
Qed.

(** ** What the functions do to [reports] and [busy] *)

Lemma filterNotSpam_filter (items kept : list json) :
  filterNotSpam items = Some kept ->
  kept = filter (fun r => negb (hasSpamCategory r)) items.
Proof.
  revert kept; induction items as [|r rest IH]; intros kept H;
    cbn [filterNotSpam] in H.
  - now inversion H.
  - destruct (getProp r (lit "category")) as [c|] eqn:E; [|discriminate].
    destruct (filterNotSpam rest) as [kept'|]; [|discriminate].
    inversion H; subst kept; clear H.
    cbn [filter]. unfold hasSpamCategory at 1. rewrite E.
    rewrite <- (IH kept' eq_refl).
    destruct (isSpam c); reflexivity.
Qed.

Lemma dataFilter_noSpam (data : json) (kept : list json) :
  dataFilter data = Some kept -> noSpam kept.
Proof.
  destruct data; try discriminate. cbn [dataFilter]. intros H r Hr.
  rewrite (filterNotSpam_filter _ H) in Hr.
  apply filter_In in Hr as [_ Hr]. now apply negb_true_iff in Hr.
Qed.

Section AllActs.
Variable P : update -> Prop.

Lemma AllActs_bind {A B : Type} (t : Task A) (f : A -> Task B) :
  AllActs P t -> (forall a, AllActs P (f a)) -> AllActs P (bind t f).
Proof.
  intros Ht Hf. induction t as [a| |u k IH|r k IH]; cbn [bind AllActs] in *.
  - apply Hf.
  - exact I.
  - split; [apply Ht|apply IH, Ht].
  - intro o. apply IH, Ht.
Qed.

Lemma AllActs_tryCatch {A : Type} (t handler : Task A) :
  AllActs P t -> AllActs P handler -> AllActs P (tryCatch t handler).
Proof.
  intros Ht Hh.
  induction t as [a| |u k IH|r k IH]; cbn [tryCatch AllActs] in *.
  - exact I.
  - exact Hh.
  - split; [apply Ht|apply IH, Ht].
  - intro o. apply IH, Ht.
Qed.

Lemma AllActs_tryFinally {A : Type} (t : Task A) (cleanup : Task unit) :
  AllActs P t -> AllActs P cleanup -> AllActs P (tryFinally t cleanup).
Proof.
  intros Ht Hc.
  induction t as [a| |u k IH|r k IH]; cbn [tryFinally AllActs] in *.
  - apply AllActs_bind; [exact Hc|intros; exact I].
  - apply AllActs_bind; [exact Hc|intros; exact I].
  - split; [apply Ht|apply IH, Ht].
  - intro o. apply IH, Ht.
Qed.

Lemma AllActs_fetch (r : request) : AllActs P (fetch r).
Proof. intros [|res]; exact I. Qed.

Lemma AllActs_resJson (res : response) : AllActs P (resJson res).
Proof. unfold resJson. destruct (body res); exact I. Qed.
End AllActs.

Lemma loadReports_clean (st : State) : AllActs cleanUpdate (loadReports st).
Proof.
  unfold loadReports.
  apply AllActs_bind; [apply AllActs_fetch|intro res].
  apply AllActs_bind; [apply AllActs_resJson|intro data].
  destruct (dataFilter data) as [kept|] eqn:E; cbn; [|exact I].
  split; [|exact I]. exact (dataFilter_noSpam _ E).
Qed.

Lemma loadReports_quiet (st : State) : AllActs quietUpdate (loadReports st).
Proof.
  unfold loadReports.
  apply AllActs_bind; [apply AllActs_fetch|intro res].
  apply AllActs_bind; [apply AllActs_resJson|intro data].
  destruct (dataFilter data) as [kept|]; cbn; tauto.
Qed.

Lemma loadEffect_clean (st : State) : AllActs cleanUpdate (loadEffect st).
Proof.
  apply AllActs_tryCatch; [apply loadReports_clean|cbn; tauto].
Qed.

Lemma loadEffect_quiet (st : State) : AllActs quietUpdate (loadEffect st).
Proof.
  apply AllActs_tryCatch; [apply loadReports_quiet|cbn; tauto].
Qed.

(** The body of the [try] of [submit] satisfies what its setter calls and
    [loadReports] satisfy. *)
Lemma submit_body (P : update -> Prop) (st : State) (p : float * float) :
  (forall e, P (SetError e)) -> P (SetText []) ->
  AllActs P (loadReports st) ->
  AllActs P
    (tryCatch
       (res <- fetch (postRequest (trim (text st)) p) ;;
        if negb (ok res) then
          msg <- tryCatch (resJson res) (Ret JNull) ;;
          setError (coalesce (optionalProp msg (lit "detail"))
                      (JStr (errorSendFailed (translations (language st)))))
        else
          setText [] ;;
          loadReports st)
       (setError (JStr (errorBackendUnreachable (translations (language st)))))).
Proof.
  intros He Ht Hl.
  apply AllActs_tryCatch; [|split; [apply He|exact I]].
  apply AllActs_bind; [apply AllActs_fetch|intro res].
  destruct (negb (ok res)).
  - apply AllActs_bind.
    + apply AllActs_tryCatch; [apply AllActs_resJson|exact I].
    + intro msg. split; [apply He|exact I].
  - apply AllActs_bind; [split; [exact Ht|exact I]|intros _; exact Hl].
Qed.

Lemma submit_clean (st : State) : AllActs cleanUpdate (submit st).
Proof.
  unfold submit.
  apply AllActs_bind; [cbn; tauto|intros _].
  destruct (badLength (trim (text st))); [cbn; tauto|].
  destruct (picked st) as [p|]; [|cbn; tauto].
  apply AllActs_bind; [cbn; tauto|intros _].
  apply AllActs_tryFinally; [|cbn; tauto].
  apply submit_body; [intro; exact I|exact I|apply loadReports_clean].
Qed.

(** A body that never calls [setBusy], run under
    [finally { setBusy(false) }] with the flag up, keeps the flag up at
    every await and lowers it on every exit. *)
Lemma busyOk_tryFinally (t : Task unit) :
  AllActs quietUpdate t -> busyOk (tryFinally t (setBusy false)) true.
Proof.
  induction t as [a| |u k IH|r k IH];
    cbn [tryFinally AllActs busyOk bind setBusy].
  - reflexivity.
  - reflexivity.
  - intros [Hu Hk]. destruct u; try contradiction; apply IH, Hk.
  - intro Hk. split; [reflexivity|]. intro o. apply IH, Hk.
Qed.

Lemma submit_busyOk (st : State) : busyOk (submit st) false.
Proof.
  unfold submit. cbn [bind setError busyOk].
  destruct (badLength (trim (text st))); [reflexivity|].
  destruct (picked st) as [p|]; [|reflexivity].
  cbn [bind setBusy busyOk].
  apply busyOk_tryFinally.
  apply submit_body; [intro; exact I|exact I|apply loadReports_quiet].
Qed.

(** ** The event loop *)

Lemma apply_clean (u : update) (s : State) :
  cleanUpdate u -> noSpam (reports s) -> noSpam (reports (apply u s)).
Proof. destruct u; cbn; auto. Qed.

Lemma apply_quiet (u : update) (s : State) :
  quietUpdate u -> busy (apply u s) = busy s.
Proof. destruct u; cbn; tauto. Qed.

Lemma exec_clean (t : Task unit) (s : State) :
  AllActs cleanUpdate t -> noSpam (reports s) ->
  noSpam (reports (fst (exec t s)))
  /\ (forall r k, snd (exec t s) = Some (r, k) ->
                  forall o, AllActs cleanUpdate (k o)).
Proof.
  revert s; induction t as [a| |u k IH|r k IH]; intros s Ht Hs;
    cbn [exec fst snd AllActs] in *.
  - split; [exact Hs|discriminate].
  - split; [exact Hs|discriminate].
  - destruct Ht as [Hu Hk]. apply IH; [exact Hk|now apply apply_clean].
  - split; [exact Hs|]. intros r' k' E. inversion E; subst. exact Ht.
Qed.

Lemma exec_quiet (t : Task unit) (s : State) :
  AllActs quietUpdate t ->
  busy (fst (exec t s)) = busy s
  /\ (forall r k, snd (exec t s) = Some (r, k) ->
                  forall o, AllActs quietUpdate (k o)).
Proof.
  revert s; induction t as [a| |u k IH|r k IH]; intros s Ht;
    cbn [exec fst snd AllActs] in *.
  - split; [reflexivity|discriminate].
  - split; [reflexivity|discriminate].
  - destruct Ht as [Hu Hk]. destruct (IH (apply u s) Hk) as [Hb Hc].
    split; [|exact Hc]. rewrite Hb. now apply apply_quiet.
  - split; [reflexivity|]. intros r' k' E. inversion E; subst. exact Ht.
Qed.

Lemma exec_busyOk (t : Task unit) (s : State) :
  busyOk t (busy s) ->
  match snd (exec t s) with
  | None => busy (fst (exec t s)) = false
  | Some (_, k) =>
      busy (fst (exec t s)) = true /\ forall o, busyOk (k o) true
  end.
Proof.
  revert s; induction t as [a| |u k IH|r k IH]; intros s Ht;
    cbn [exec fst snd busyOk] in *.
  - exact Ht.
  - exact Ht.
  - apply IH. destruct u; exact Ht.
  - exact Ht.
Qed.

Lemma removeNth_Forall {A : Type} (P : A -> Prop) (i : nat) (l : list A) :
  Forall P l -> Forall P (removeNth i l).
Proof.
  revert i; induction l as [|x l IH]; intros [|i] H; cbn; auto;
    inversion H; subst; auto.
Qed.

Lemma removeNth_count (i : nat) (l : list (origin * Cont)) (p : origin * Cont) :
  nth_error l i = Some p ->
  List.length (filter isSubmit l)
  = (List.length (filter isSubmit (removeNth i l))
     + (if isSubmit p then 1 else 0))%nat.
Proof.
  revert i; induction l as [|x l IH]; intros [|i] H; cbn in H;
    try discriminate.
  - inversion H; subst. cbn [filter removeNth].
    destruct (isSubmit p); cbn [List.length]; lia.
  - cbn [filter removeNth]. specialize (IH i H).
    destruct (isSubmit x); cbn [List.length]; lia.
Qed.

(** Starting or resuming a function of the effect keeps the invariant. *)
Lemma spawn_effect (t : Task unit) (a : App) :
  Inv a -> AllActs cleanUpdate t -> AllActs quietUpdate t ->
  Inv (spawn FromEffect t a).
Proof.
  intros (Hp & Hb & Hs) Hc Hq.
  destruct (exec_clean t (ui a) Hc Hs) as [Hs' Hk].
  destruct (exec_quiet t (ui a) Hq) as [Hb' Hk'].
  unfold spawn, Inv, outstanding in *.
  destruct (exec t (ui a)) as [s' [[r k]|]]; cbn [fst snd ui pending] in *.
  - split; [|split; [|exact Hs']].
    + apply Forall_app. split; [exact Hp|]. constructor; [|constructor].
      intro o. cbn [fst snd]. split; [now apply (Hk r k)|now apply (Hk' r k)].
    + rewrite filter_app, length_app. cbn. rewrite Hb'. lia.
  - rewrite Hb'. auto.
Qed.

(** Starting or resuming [submit] with no other submission in flight
    keeps the invariant. *)
Lemma spawn_submit (t : Task unit) (a : App) :
  Forall contOk (pending a) -> noSpam (reports (ui a)) ->
  outstanding a = O ->
  AllActs cleanUpdate t -> busyOk t (busy (ui a)) ->
  Inv (spawn FromSubmit t a).
Proof.
  intros Hp Hs Ho Hc Hb.
  destruct (exec_clean t (ui a) Hc Hs) as [Hs' Hk].
  pose proof (exec_busyOk t (ui a) Hb) as Hb'.
  unfold spawn, Inv, outstanding in *.
  destruct (exec t (ui a)) as [s' [[r k]|]]; cbn [fst snd ui pending] in *.
  - destruct Hb' as [Hb' Hk']. split; [|split; [|exact Hs']].
    + apply Forall_app. split; [exact Hp|]. constructor; [|constructor].
      intro o. cbn [fst snd]. split; [now apply (Hk r k)|apply Hk'].
    + rewrite filter_app, length_app, Ho, Hb'. reflexivity.
  - rewrite Hb'. auto.
Qed.

Lemma render_Inv (u : update) (a : App) :
  Inv a -> cleanUpdate u -> quietUpdate u -> Inv (render u a).
Proof.
  intros (Hp & Hb & Hs) Hc Hq. unfold Inv, render, outstanding in *.
  cbn [ui pending]. rewrite apply_quiet by exact Hq.
  split; [exact Hp|split; [exact Hb|now apply apply_clean]].
Qed.

Lemma renders_Inv (us : list update) (a : App) :
  Inv a -> Forall (fun u => cleanUpdate u /\ quietUpdate u) us ->
  Inv (renders us a).
Proof.
  unfold renders. revert a; induction us as [|u us IH]; intros a H Hus;
    cbn [fold_left]; [exact H|].
  inversion Hus as [|? ? [Hc Hq] Hrest]; subst.
  apply IH; [now apply render_Inv|exact Hrest].
Qed.

Lemma afterRender_Inv (before : State) (a : App) :
  Inv a -> Inv (afterRender before a).
Proof.
  intro H. unfold afterRender.
  destruct (streq _ _ && streq _ _); [exact H|].
  apply spawn_effect; [exact H|apply loadEffect_clean|apply loadEffect_quiet].
Qed.

Lemma step_Inv (a : App) (e : event) : Inv a -> Inv (step a e).
Proof.
  intro H. destruct e; cbn [step].
  - apply render_Inv; [exact H|exact I|exact I].
  - apply render_Inv; [exact H|exact I|exact I].
  - destruct (busy (ui a)) eqn:Hb; [exact H|].
    destruct H as (Hp & Ho & Hs). rewrite Hb in Ho.
    apply spawn_submit; try assumption; [apply submit_clean|].
    rewrite Hb. apply submit_busyOk.
  - exact H.
  - apply afterRender_Inv, render_Inv; [exact H|exact I|exact I].
  - apply render_Inv; [exact H|exact I|exact I].
  - apply afterRender_Inv, renders_Inv; [exact H|].
    repeat constructor.
  - destruct (activeFilters (ui a)); [|exact H].
    apply afterRender_Inv, renders_Inv; [exact H|]. repeat constructor.
  - apply renders_Inv; [exact H|]. repeat constructor.
  - destruct (nth_error (pending a) i) as [[o k]|] eqn:E; [|exact H].
    destruct H as (Hp & Ho & Hs).
    pose proof (removeNth_count i (pending a) E) as Hn.
    assert (Hk : contOk (o, k)).
    { eapply Forall_forall; [exact Hp|]. eapply nth_error_In, E. }
    set (b := {| ui := ui a; pending := removeNth i (pending a);
                 sent := sent a; opened := opened a |}).
    assert (Hpb : Forall contOk (pending b)) by now apply removeNth_Forall.
    unfold outstanding in Ho. unfold isSubmit in Hn at 3. cbn [fst] in Hn.
    destruct (Hk r) as [Hc Hq]. cbn [fst snd] in Hc, Hq.
    destruct o.
    + assert (Hb : busy (ui a) = true) by (destruct (busy (ui a)); [easy|lia]).
      rewrite Hb in Ho.
      apply spawn_submit; try assumption.
      * unfold outstanding. cbn [pending b]. lia.
      * cbn [ui b]. now rewrite Hb.
    + apply spawn_effect; try assumption.
      split; [exact Hpb|split; [|exact Hs]].
      unfold outstanding. cbn [pending ui b]. lia.
Qed.

Lemma mounted_Inv : Inv mounted.
Proof.
  apply spawn_effect; [|apply loadEffect_clean|apply loadEffect_quiet].
  split; [constructor|split; [reflexivity|]]. intros r [].
Qed.

Lemma reachable_Inv (a : App) : reachable a -> Inv a.
Proof.
  induction 1 as [|a e _ IH]; [apply mounted_Inv|now apply step_Inv].
Qed.

Lemma reachable_steps (a : App) (es : list event) :
  reachable a -> reachable (steps a es).
Proof.
  revert a; induction es as [|e es IH]; intros a H; cbn; [exact H|].
  apply IH. now constructor.
Qed.

Lemma run_busyOk {A : Type} (t : Task A) (net : nat -> fetch_result)
  (s : State) :
  busyOk t (busy s) -> busy (finalState (run t net s)) = false.
Proof.
  revert net s; induction t as [a| |u k IH|r k IH]; intros net s Ht;
    cbn [run busyOk] in *.
  - exact Ht.
  - exact Ht.
  - specialize (IH net (apply u s) Ht).
    destruct (run k net (apply u s)) as [[s' log] x]. exact IH.
  - destruct Ht as [Hb Ht].
    specialize (IH (net O) (fun n => net (S n)) s).
    rewrite Hb in IH. specialize (IH (Ht _)).
    destruct (run (k (net O)) (fun n => net (S n)) s) as [[s' log] x].
    exact IH.
Qed.

(** C2: in every state the page can reach, whatever the category filter
    and the search text, no stored report has the category [Spam]; and a
    list load that succeeds stores exactly the elements of the answer
    whose category is not [Spam], in order. *)
Theorem displayed_reports_never_spam (a : App) :
  reachable a ->
  (forall r, In r (reports (ui a)) -> hasSpamCategory r = false)
  /\ (forall (net : nat -> fetch_result) (s : State),
        loadFails (net O) = false ->
        exists okb items,
          net O = Resolved {| ok := okb; body := Some (JArr items) |}
          /\ reports (finalState (run (loadEffect (ui a)) net s))
             = filter (fun r => negb (hasSpamCategory r)) items).
Proof.
  intro H. split; [apply (reachable_Inv H)|].
  intros net s Hf. unfold loadFails in Hf.
  unfold loadEffect, loadReports. run_async.
  destruct (net O) as [|[okb [data|]]]; try discriminate.
  cbn [body] in Hf. destruct data as [| | | |items|]; try discriminate.
  exists okb, items. split; [reflexivity|].
  run_async.
  destruct (dataFilter (JArr items)) as [kept|] eqn:E; [|discriminate].
  run_async. cbn [reports apply]. cbn [dataFilter] in E.
  now apply filterNotSpam_filter.
Qed.

(** C2, witness: the first list, one Spam report and one obstacle, has
    arrived. *)
Lemma displayed_reports_never_spam_witness :
  reports (ui loadedPage) = [obstacleReport]
  /\ (forall r, In r (reports (ui loadedPage)) -> hasSpamCategory r = false).
Proof.
  split; [reflexivity|].
  apply (displayed_reports_never_spam (a := loadedPage)).
  apply reachable_steps, reach_mounted.
Defined.

(** C4: in every state the page can reach, the busy flag is up exactly
    while one submission is in flight, and never more than one is.  While
    it is up the submit button does nothing.  When the awaited request of
    the submission settles, whatever it settles to, either [submit] is
    finished and the flag is down, or [submit] awaits its list reload and
    the flag is still up.  Run to completion from an idle page, [submit]
    always ends with the flag down. *)
Theorem busy_guards_submission (a : App) :
  reachable a ->
  outstanding a = (if busy (ui a) then 1 else 0)%nat
  /\ (busy (ui a) = true -> step a ClickSubmit = a)
  /\ (forall i k r,
        nth_error (pending a) i = Some (FromSubmit, k) ->
        busy (ui a) = true
        /\ match snd (exec (k r) (ui a)) with
           | None =>
               busy (ui (step a (Settle i r))) = false
               /\ outstanding (step a (Settle i r)) = 0%nat
           | Some _ =>
               busy (ui (step a (Settle i r))) = true
               /\ outstanding (step a (Settle i r)) = 1%nat
           end)
  /\ (busy (ui a) = false ->
      forall net, busy (finalState (run (submit (ui a)) net (ui a))) = false).
Proof.
  intro H. pose proof (reachable_Inv H) as (Hp & Ho & Hs).
  split; [exact Ho|split; [|split]].
  - intro Hb. cbn [step]. now rewrite Hb.
  - intros i k r E.
    pose proof (removeNth_count i (pending a) E) as Hn.
    unfold isSubmit in Hn at 3. cbn [fst] in Hn.
    assert (Hb : busy (ui a) = true).
    { unfold outstanding in Ho. destruct (busy (ui a)); [easy|lia]. }
    split; [exact Hb|].
    pose proof (reachable_Inv (reach_step (Settle i r) H)) as (_ & Ho' & _).
    revert Ho'. unfold outstanding in *. cbn [step]. rewrite E.
    unfold spawn. cbn [ui pending]. rewrite Hb in Ho.
    destruct (exec (k r) (ui a)) as [s' [[q k']|]]; cbn [ui pending snd].
    + rewrite filter_app, length_app. cbn [filter isSubmit fst List.length].
      destruct (busy s'); intro; split; (reflexivity || lia).
    + destruct (busy s'); intro; split; (reflexivity || lia).
  - intros Hb net. apply run_busyOk. rewrite Hb. apply submit_busyOk.
Qed.

(** C4, witness: the glass report was submitted and its POST is in
    flight. *)
Lemma busy_guards_submission_witness :
  busy (ui submittingPage) = true
  /\ outstanding submittingPage = 1%nat
  /\ step submittingPage ClickSubmit = submittingPage.
Proof.
  assert (R : reachable submittingPage)
    by apply reachable_steps, reach_mounted.
  split; [reflexivity|split].
  - exact (proj1 (busy_guards_submission R)).
  - exact (proj1 (proj2 (busy_guards_submission R)) eq_refl).
Defined.

(** * Further properties of the component *)

(** ** [trim] *)

Lemma trimStart_app_ws (w s : jsstring) :
  allWhiteSpace w = true -> trimStart (w ++ s) = trimStart s.
Proof.
  induction w as [|c w IH]; cbn [allWhiteSpace forallb app trimStart];
    [reflexivity|].
  intro H. apply andb_true_iff in H as [Hc Hw]. rewrite Hc. now apply IH.
Qed.

Lemma trimStart_ws (w : jsstring) : allWhiteSpace w = true -> trimStart w = [].
Proof.
  intro H. rewrite <- (app_nil_r w). now rewrite trimStart_app_ws.
Qed.

Lemma trimStart_app (s w : jsstring) :
  trimStart (s ++ w)
  = match trimStart s with
    | [] => trimStart w
    | _ => trimStart s ++ w
    end.
Proof.
  induction s as [|c s IH]; cbn [app trimStart].
  - destruct (trimStart w); reflexivity.
  - destruct (isWhiteSpace c); [exact IH|reflexivity].
Qed.

Lemma allWhiteSpace_rev (w : jsstring) :
  allWhiteSpace (rev w) = allWhiteSpace w.
Proof.
  unfold allWhiteSpace. induction w as [|c w IH]; [reflexivity|].
  cbn [rev forallb]. rewrite forallb_app, IH. cbn [forallb].
  now rewrite andb_true_r, andb_comm.
Qed.

Lemma trimEnd_app_ws (s w : jsstring) :
  allWhiteSpace w = true -> trimEnd (s ++ w) = trimEnd s.
Proof.
  intro H. unfold trimEnd. rewrite rev_app_distr.
  rewrite trimStart_app_ws; [reflexivity|now rewrite allWhiteSpace_rev].
Qed.

Lemma trimEnd_nil : trimEnd [] = [].
Proof. reflexivity. Qed.

(** Whitespace around a string does not survive [trim]. *)
Lemma trim_padding (w1 s w2 : jsstring) :
  allWhiteSpace w1 = true -> allWhiteSpace w2 = true ->
  trim (w1 ++ s ++ w2) = trim s.
Proof.
  intros H1 H2. unfold trim. rewrite trimStart_app_ws by exact H1.
  rewrite trimStart_app. destruct (trimStart s) as [|c t] eqn:E.
  - now rewrite trimStart_ws.
  - now rewrite trimEnd_app_ws.
Qed.

(** What [trimStart] leaves does not start with whitespace. *)
Lemma trimStart_head (s : jsstring) :
  match trimStart s with
  | [] => True
  | c :: _ => isWhiteSpace c = false
  end.
Proof.
  induction s as [|c s IH]; cbn [trimStart]; [exact I|].
  destruct (isWhiteSpace c) eqn:E; [exact IH|exact E].
Qed.

Lemma trimStart_fixed (s : jsstring) :
  match s with
  | [] => True
  | c :: _ => isWhiteSpace c = false
  end -> trimStart s = s.
Proof. destruct s as [|c s]; cbn [trimStart]; [easy|]. now intros ->. Qed.

Lemma trimStart_idem (s : jsstring) : trimStart (trimStart s) = trimStart s.
Proof. apply trimStart_fixed, trimStart_head. Qed.

Lemma trimEnd_idem (s : jsstring) : trimEnd (trimEnd s) = trimEnd s.
Proof.
  unfold trimEnd. now rewrite rev_involutive, trimStart_idem.
Qed.

(** [trimStart s] is a suffix of [s]. *)
Lemma trimStart_suffix (s : jsstring) :
  exists w, allWhiteSpace w = true /\ s = w ++ trimStart s.
Proof.
  induction s as [|c s (w & Hw & E)]; cbn [trimStart].
  - now exists [].
  - destruct (isWhiteSpace c) eqn:Hc.
    + exists (c :: w). cbn [allWhiteSpace forallb app].
      unfold allWhiteSpace in Hw. rewrite Hc, Hw. now rewrite <- E.
    + now exists [].
Qed.

Lemma trimEnd_prefix (s : jsstring) :
  exists w, allWhiteSpace w = true /\ s = trimEnd s ++ w.
Proof.
  destruct (trimStart_suffix (rev s)) as (w & Hw & E).
  exists (rev w). rewrite allWhiteSpace_rev. split; [exact Hw|].
  unfold trimEnd. rewrite <- rev_app_distr, <- E. now rewrite rev_involutive.
Qed.

(** Trimming the end of a string that does not start with whitespace
    leaves a string that does not start with whitespace. *)
Lemma trimEnd_keeps_head (s : jsstring) :
  trimStart s = s -> trimStart (trimEnd s) = trimEnd s.
Proof.
  intro H. destruct (trimEnd_prefix s) as (w & Hw & E).
  destruct (trimEnd s) as [|c t] eqn:Et; [reflexivity|].
  apply trimStart_fixed.
  rewrite E in H. cbn [app trimStart] in H.
  destruct (isWhiteSpace c) eqn:Hc; [|reflexivity].
  exfalso.
  assert (L : (List.length (trimStart (t ++ w)) <= List.length (t ++ w))%nat)
    by apply trimStart_length.
  rewrite H in L. cbn [List.length] in L. lia.
Qed.

Lemma trim_idem (s : jsstring) : trim (trim s) = trim s.
Proof.
  unfold trim.
  rewrite (trimEnd_keeps_head (trimStart_idem s)).
  apply trimEnd_idem.
Qed.

(** ** [markerColor] and the Spam filter *)

(** X1: [markerColor] ignores whitespace around its argument: padding a
    category with whitespace, or trimming it, does not change its
    colour. *)
Theorem markerColor_ignores_padding (w1 c w2 : jsstring) :
  allWhiteSpace w1 = true -> allWhiteSpace w2 = true ->
  markerColor (Some (w1 ++ c ++ w2)) = markerColor (Some c)
  /\ markerColor (Some (trim c)) = markerColor (Some c).
Proof.
  intros H1 H2. unfold markerColor.
  now rewrite trim_padding, trim_idem.
Qed.

Lemma markerColor_ignores_padding_witness :
  markerColor (Some ([9; 32] ++ lit "Hindernis" ++ [10]))
  = markerColor (Some (lit "Hindernis")).
Proof.
  exact (proj1 (@markerColor_ignores_padding [9; 32] (lit "Hindernis") [10]
                  eq_refl eq_refl)).
Defined.

Lemma streq_length (a b : jsstring) :
  List.length a <> List.length b -> streq a b = false.
Proof.
  intro H. apply streq_neq. intros ->. now apply H.
Qed.

(** X2: the Spam filter compares the category exactly while
    [markerColor] trims it.  A report whose category is [Spam] with
    whitespace around it passes the filter of [loadReports] and is then
    drawn in the grey of Spam. *)
Theorem padded_spam_is_kept_and_grey
  (w1 w2 : jsstring) (members : list (jsstring * json)) :
  allWhiteSpace w1 = true -> allWhiteSpace w2 = true ->
  w1 ++ w2 <> [] ->
  getOwn (lit "category") members = Some (JStr (w1 ++ lit "Spam" ++ w2)) ->
  hasSpamCategory (JObj members) = false
  /\ dataFilter (JArr [JObj members]) = Some [JObj members]
  /\ markerColor (Some (w1 ++ lit "Spam" ++ w2)) = lit "#94a3b8".
Proof.
  intros H1 H2 Hne Hc.
  assert (Hs : isSpam (Some (JStr (w1 ++ lit "Spam" ++ w2))) = false).
  { cbn [isSpam]. apply streq_length. rewrite !length_app.
    destruct w1, w2; cbn [List.length] in *; try lia. now elim Hne. }
  split; [|split].
  - unfold hasSpamCategory. cbn [getProp]. now rewrite Hc.
  - cbn [dataFilter filterNotSpam getProp]. now rewrite Hc, Hs.
  - unfold markerColor. now rewrite trim_padding.
Qed.

Lemma padded_spam_is_kept_and_grey_witness :
  dataFilter (JArr [paddedSpamReport]) = Some [paddedSpamReport]
  /\ markerColor (Some ([9] ++ lit "Spam")) = lit "#94a3b8".
Proof.
  assert (Hne : [9] ++ [] <> ([] : jsstring)) by (cbn; discriminate).
  pose proof (@padded_spam_is_kept_and_grey [9] []
                [(lit "id", JNum 9);
                 (lit "category", JStr ([9] ++ lit "Spam"))]
                eq_refl eq_refl Hne eq_refl) as H.
  exact (conj (proj1 (proj2 H)) (proj2 (proj2 H))).
Defined.

(** ** What [submit] and [loadReports] send and change *)

(** The setters the two functions call. *)
Lemma loadReports_acts (P : update -> Prop) (st : State) :
  (forall l, P (SetReports l)) -> AllActs P (loadReports st).
Proof.
  intro Hr. unfold loadReports.
  apply AllActs_bind; [apply AllActs_fetch|intro res].
  apply AllActs_bind; [apply AllActs_resJson|intro data].
  destruct (dataFilter data) as [kept|]; cbn; [|exact I].
  split; [apply Hr|exact I].
Qed.

Lemma loadEffect_acts (P : update -> Prop) (st : State) :
  (forall l, P (SetReports l)) -> (forall e, P (SetError e)) ->
  AllActs P (loadEffect st).
Proof.
  intros Hr He.
  apply AllActs_tryCatch; [now apply loadReports_acts|].
  split; [apply He|exact I].
Qed.

Lemma submit_acts (P : update -> Prop) (st : State) :
  (forall e, P (SetError e)) -> (forall b, P (SetBusy b)) ->
  P (SetText []) -> (forall l, P (SetReports l)) ->
  AllActs P (submit st).
Proof.
  intros He Hb Ht Hr. unfold submit.
  apply AllActs_bind; [split; [apply He|exact I]|intros _].
  destruct (badLength (trim (text st))); [split; [apply He|exact I]|].
  destruct (picked st) as [p|]; [|split; [apply He|exact I]].
  apply AllActs_bind; [split; [apply Hb|exact I]|intros _].
  apply AllActs_tryFinally; [|split; [apply Hb|exact I]].
  apply submit_body; [exact He|exact Ht|now apply loadReports_acts].
Qed.

(** A part of the state that no setter call of [t] touches is the same
    after [t] has run. *)
Lemma run_frame {A B : Type} (proj : State -> B) (t : Task A)
  (net : nat -> fetch_result) (s : State) :
  AllActs (fun u => forall s', proj (apply u s') = proj s') t ->
  proj (finalState (run t net s)) = proj s.
Proof.
  revert net s; induction t as [a| |u k IH|r k IH]; intros net s Ht;
    cbn [run AllActs] in *; try reflexivity.
  - destruct Ht as [Hu Hk]. specialize (IH net (apply u s) Hk).
    destruct (run k net (apply u s)) as [[s' log] x].
    cbn [finalState fst] in *. now rewrite IH.
  - specialize (IH (net O) (fun n => net (S n)) s (Ht _)).
    destruct (run (k (net O)) (fun n => net (S n)) s) as [[s' log] x].
    exact IH.
Qed.

(** X3: whatever the network does, one run of [submit] sends nothing, or
    one POST, or one POST followed by the list request of its render; it
    never posts twice.  What it posts is the trimmed text, which has 5 to
    150 code units and no whitespace left to trim, with the picked
    coordinates. *)
Theorem submit_posts_at_most_once
  (st s : State) (net : nat -> fetch_result) :
  requests (logOf (run (submit st) net s)) = []
  \/ exists p,
       picked st = Some p
       /\ (5 <= List.length (trim (text st)) <= 150)%nat
       /\ trim (trim (text st)) = trim (text st)
       /\ (requests (logOf (run (submit st) net s))
           = [postRequest (trim (text st)) p]
           \/ requests (logOf (run (submit st) net s))
              = [postRequest (trim (text st)) p; listRequest st]).
Proof.
  destruct (badLength (trim (text st))) eqn:Hb.
  { left. now rewrite run_submit_bad_length. }
  destruct (picked st) as [p|] eqn:Hp.
  2:{ left. now rewrite run_submit_no_position. }
  right. exists p. split; [reflexivity|].
  split; [now apply badLength_false|]. split; [apply trim_idem|].
  unfold submit. rewrite Hb, Hp. run_async.
  destruct (net O) as [|[o b]]; run_async; [now left|].
  destruct o; cbn [negb]; run_async.
  - right.
    destruct (net 1%nat) as [|[o1 [data|]]]; run_async; try reflexivity.
    destruct (dataFilter data); reflexivity.
  - left. unfold resJson. destruct b; run_async; reflexivity.
Qed.

(** X4: [submit] never changes the picked position, the language, the
    filter, the search text or the search box; it leaves the text as it
    is or empties it; and it replaces the reports only when the
    submission succeeded. *)
Theorem submit_frame (st s : State) (net : nat -> fetch_result) :
  picked (finalState (run (submit st) net s)) = picked s
  /\ language (finalState (run (submit st) net s)) = language s
  /\ filterCategory (finalState (run (submit st) net s)) = filterCategory s
  /\ searchText (finalState (run (submit st) net s)) = searchText s
  /\ tempSearch (finalState (run (submit st) net s)) = tempSearch s
  /\ (text (finalState (run (submit st) net s)) = text s
      \/ text (finalState (run (submit st) net s)) = [])
  /\ (submissionSucceeds st net = false ->
      reports (finalState (run (submit st) net s)) = reports s).
Proof.
  repeat (split; [apply run_frame; apply submit_acts; reflexivity|]).
  unfold submissionSucceeds.
  destruct (badLength (trim (text st))) eqn:Hb.
  { rewrite run_submit_bad_length by assumption. split; [now left|easy]. }
  destruct (picked st) as [p|] eqn:Hp.
  2:{ rewrite run_submit_no_position by assumption. split; [now left|easy]. }
  unfold submit. rewrite Hb, Hp. run_async. cbn [negb andb].
  destruct (net O) as [|[o b]]; run_async; [split; [now left|easy]|].
  destruct o; cbn [negb]; run_async.
  - split; [right|discriminate].
    destruct (net 1%nat) as [|[o1 [data|]]]; run_async; try reflexivity.
    destruct (dataFilter data); reflexivity.
  - unfold resJson. destruct b; run_async; (split; [now left|easy]).
Qed.

(** X5: the list load of the effect touches nothing but [reports] and
    [error]: the text, the position, the busy flag, the language and the
    filter controls stay.  When it succeeds it leaves [error] as it was,
    so a message shown before is still shown. *)
Theorem loadEffect_frame (st s : State) (net : nat -> fetch_result) :
  text (finalState (run (loadEffect st) net s)) = text s
  /\ picked (finalState (run (loadEffect st) net s)) = picked s
  /\ busy (finalState (run (loadEffect st) net s)) = busy s
  /\ language (finalState (run (loadEffect st) net s)) = language s
  /\ filterCategory (finalState (run (loadEffect st) net s))
     = filterCategory s
  /\ searchText (finalState (run (loadEffect st) net s)) = searchText s
  /\ tempSearch (finalState (run (loadEffect st) net s)) = tempSearch s
  /\ (loadFails (net O) = false ->
      error (finalState (run (loadEffect st) net s)) = error s)
  /\ requests (logOf (run (loadEffect st) net s)) = [listRequest st].
Proof.
  repeat (split; [apply run_frame; apply loadEffect_acts; reflexivity|]).
  unfold loadEffect, loadReports, loadFails. run_async.
  destruct (net O) as [|[o [data|]]]; run_async;
    try (split; [discriminate|reflexivity]).
  cbn [body].
  destruct (dataFilter data); run_async;
    (split; [try discriminate; reflexivity|reflexivity]).
Qed.

(** ** The filter of [loadReports] *)

Lemma getProp_None (r : json) (name : jsstring) :
  getProp r name = None <-> r = JNull.
Proof. destruct r; cbn [getProp]; split; congruence. Qed.

Lemma filterNotSpam_None (items : list json) :
  filterNotSpam items = None <-> In JNull items.
Proof.
  induction items as [|r rest IH]; cbn [filterNotSpam In].
  - split; [discriminate|tauto].
  - destruct (getProp r (lit "category")) as [c|] eqn:E.
    + assert (r <> JNull) by (intros ->; discriminate).
      destruct (filterNotSpam rest) as [kept|].
      * split; [discriminate|]. intros [H'|H']; [congruence|].
        apply IH in H'. discriminate.
      * split; [intros _; right; now apply IH|reflexivity].
    + apply getProp_None in E. split; [now left|reflexivity].
Qed.

(** X6: the filter of [loadReports] throws exactly when the parsed answer
    is not an array or is an array with a [null] element; one [null]
    entry makes the whole answer unusable. *)
Theorem dataFilter_fails_iff (data : json) :
  dataFilter data = None
  <-> (forall items, data <> JArr items)
      \/ (exists items, data = JArr items /\ In JNull items).
Proof.
  destruct data as [| | | |items|]; cbn [dataFilter];
    try (split; [intros _; left; discriminate|reflexivity]).
  rewrite filterNotSpam_None. split.
  - intro H. right. now exists items.
  - intros [H|(items' & E & H)]; [now elim (H items)|].
    now inversion E; subst.
Qed.

Lemma filterNotSpam_fixed (items kept : list json) :
  filterNotSpam items = Some kept -> filterNotSpam kept = Some kept.
Proof.
  revert kept; induction items as [|r rest IH]; intros kept H;
    cbn [filterNotSpam] in H.
  - now inversion H.
  - destruct (getProp r (lit "category")) as [c|] eqn:E; [|discriminate].
    destruct (filterNotSpam rest) as [kept'|]; [|discriminate].
    specialize (IH kept' eq_refl).
    destruct (isSpam c) eqn:Hs; inversion H; subst kept; [exact IH|].
    cbn [filterNotSpam]. now rewrite E, IH, Hs.
Qed.

(** X7: when the filter of [loadReports] succeeds, what it keeps is
    exactly the elements that are not Spam, no more elements than it was
    given, and filtering the result again changes nothing. *)
Theorem dataFilter_idempotent (items kept : list json) :
  dataFilter (JArr items) = Some kept ->
  dataFilter (JArr kept) = Some kept
  /\ (List.length kept <= List.length items)%nat
  /\ (forall r, In r kept <-> In r items /\ hasSpamCategory r = false).
Proof.
  cbn [dataFilter]. intro H. split; [now apply (filterNotSpam_fixed items)|].
  rewrite (filterNotSpam_filter _ H). split; [apply filter_length_le|].
  intro r. rewrite filter_In, negb_true_iff. tauto.
Qed.

Lemma dataFilter_idempotent_witness :
  dataFilter (JArr [obstacleReport]) = Some [obstacleReport]
  /\ (List.length [obstacleReport] <= List.length [spamReport; obstacleReport])%nat.
Proof.
  pose proof (@dataFilter_idempotent [spamReport; obstacleReport]
                [obstacleReport] eq_refl) as H.
  exact (conj (proj1 H) (proj1 (proj2 H))).
Defined.

(** ** The request URLs *)

(** X8: the URL of the list request, case by case: the bare [/reports]
    URL without filters, and otherwise a query that carries the category
    first and the search text second, each encoded. *)
Theorem listRequest_url_cases (st : State) :
  req_url (listRequest st)
  = API_BASE ++ lit "/reports"
    ++ match filterCategory st, searchText st with
       | [], [] => []
       | [], _ :: _ =>
           lit "?search=" ++ URLSearchParams.encode (searchText st)
       | _ :: _, [] =>
           lit "?category=" ++ URLSearchParams.encode (filterCategory st)
       | _ :: _, _ :: _ =>
           lit "?category=" ++ URLSearchParams.encode (filterCategory st)
           ++ lit "&search=" ++ URLSearchParams.encode (searchText st)
       end.
Proof.
  unfold listRequest, withQuery. cbn [req_url]. rewrite listParams_eq.
  rewrite <- app_assoc. f_equal. f_equal.
  destruct (filterCategory st) as [|c f], (searchText st) as [|d x];
    cbn [truthy app]; reflexivity.
Qed.










(** ** The handlers and the effect *)

(** Started from any state, the effect sends its list request and waits. *)
Lemma exec_loadEffect (st s : State) :
  exists k, exec (loadEffect st) s = (s, Some (listRequest st, k)).
Proof. unfold loadEffect, loadReports. run_async. eexists. reflexivity. Qed.

Lemma spawn_loadEffect (st : State) (a : App) :
  exists k,
    spawn FromEffect (loadEffect st) a
    = {| ui := ui a; pending := pending a ++ [(FromEffect, k)];
         sent := sent a ++ [listRequest st]; opened := opened a |}.
Proof.
  unfold spawn. destruct (exec_loadEffect st (ui a)) as [k ->].
  now exists k.
Qed.

(** X10: choosing a category that differs from the current one sends one
    list request, built from the new filter, and keeps the reports on
    display until it is answered; choosing the current one again sends
    nothing.  Typing in the search box sends nothing and leaves the active
    search text alone; running the search sends one list request when the
    box differs from the active search text and nothing otherwise. *)
Theorem filter_controls_reload (a : App) (c x : jsstring) :
  filterCategory (ui (step a (SelectCategory c))) = c
  /\ reports (ui (step a (SelectCategory c))) = reports (ui a)
  /\ sent (step a (SelectCategory c))
     = sent a
       ++ (if streq (filterCategory (ui a)) c then []
           else [listRequest (apply (SetFilterCategory c) (ui a))])
  /\ sent (step a (TypeSearch x)) = sent a
  /\ searchText (ui (step a (TypeSearch x))) = searchText (ui a)
  /\ tempSearch (ui (step a (TypeSearch x))) = x
  /\ searchText (ui (step a RunSearch)) = tempSearch (ui a)
  /\ sent (step a RunSearch)
     = sent a
       ++ (if streq (searchText (ui a)) (tempSearch (ui a)) then []
           else [listRequest
                   (apply (SetSearchText (tempSearch (ui a))) (ui a))]).
Proof.
  assert (Hs : forall u,
             (forall s, searchText (apply u s) = searchText s) ->
             streq (searchText (ui a)) (searchText (ui (render u a))) = true).
  { intros u Hu. cbn [render ui]. rewrite Hu. apply streq_refl. }
  assert (Hf : forall u,
             (forall s, filterCategory (apply u s) = filterCategory s) ->
             streq (filterCategory (ui a)) (filterCategory (ui (render u a)))
             = true).
  { intros u Hu. cbn [render ui]. rewrite Hu. apply streq_refl. }
  cbn [step renders handleSearch fold_left]. unfold afterRender.
  rewrite (Hs (SetFilterCategory c)), (Hf (SetSearchText (tempSearch (ui a))))
    by reflexivity.
  rewrite andb_true_r. cbn [andb].
  change (filterCategory (ui (render (SetFilterCategory c) a))) with c.
  change (searchText (ui (render (SetSearchText (tempSearch (ui a))) a)))
    with (tempSearch (ui a)).
  destruct (streq (filterCategory (ui a)) c);
    destruct (streq (searchText (ui a)) (tempSearch (ui a)));
    repeat match goal with
      | |- context [spawn FromEffect (loadEffect ?st) ?b] =>
          let k := fresh "k" in
          destruct (spawn_loadEffect st b) as [k ->]
      end;
    cbn [ui sent render apply filterCategory reports searchText tempSearch];
    rewrite ?app_nil_r; repeat split.
Qed.

(** X11: when a filter or a search text is active, clearing empties the
    filter, the search text and the search box together and sends one list
    request, to the bare [/reports] URL; when none is active the button is
    not there and nothing happens. *)
Theorem clear_filters_resets (a : App) :
  if activeFilters (ui a)
  then filterCategory (ui (step a ClickClear)) = []
       /\ searchText (ui (step a ClickClear)) = []
       /\ tempSearch (ui (step a ClickClear)) = []
       /\ reports (ui (step a ClickClear)) = reports (ui a)
       /\ exists q,
            sent (step a ClickClear) = sent a ++ [q]
            /\ req_method q = GET
            /\ req_url q = API_BASE ++ lit "/reports"
            /\ req_params q = []
  else step a ClickClear = a.
Proof.
  cbn [step]. destruct (activeFilters (ui a)) eqn:Ha; [|reflexivity].
  unfold afterRender, renders, clearFilters. cbn [fold_left].
  set (b := render _ (render _ (render _ a))).
  assert (Hc : streq (filterCategory (ui a)) (filterCategory (ui b))
               && streq (searchText (ui a)) (searchText (ui b)) = false).
  { subst b. cbn [render ui apply filterCategory searchText].
    unfold activeFilters in Ha.
    destruct (filterCategory (ui a)), (searchText (ui a));
      [discriminate|reflexivity|reflexivity|reflexivity]. }
  rewrite Hc. destruct (spawn_loadEffect (ui b) b) as [k ->].
  cbn [ui sent]. subst b.
  cbn [render ui sent apply filterCategory searchText tempSearch reports].
  repeat split. eexists. split; [reflexivity|]. repeat split.
Qed.

(** X12: switching the language twice gives back the same page; one
    switch changes the language and nothing else: no request is sent,
    nothing in flight is dropped, and an error message already on display
    keeps the wording it was set with. *)
Theorem toggle_language_involution (a : App) :
  step (step a ToggleLanguage) ToggleLanguage = a
  /\ language (ui (step a ToggleLanguage)) <> language (ui a)
  /\ error (ui (step a ToggleLanguage)) = error (ui a)
  /\ sent (step a ToggleLanguage) = sent a
  /\ pending (step a ToggleLanguage) = pending a.
Proof.
  destruct a as [[l t p r e b f s x] pd sn op].
  destruct l; repeat split; discriminate.
Qed.

(** X14: on a page with no submission in flight, typing a text whose
    trimmed form has 5 to 150 code units, picking a position and pressing
    submit sends exactly one request, the POST of the trimmed text at that
    position; the busy flag is then up, the old error is gone and the
    typed text is still in the form. *)
Theorem type_pick_submit
  (a : App) (t : jsstring) (lat lng : float) :
  busy (ui a) = false ->
  (5 <= List.length (trim t) <= 150)%nat ->
  sent (steps a [TypeText t; PickPosition lat lng; ClickSubmit])
  = sent a ++ [postRequest (trim t) (lat, lng)]
  /\ busy (ui (steps a [TypeText t; PickPosition lat lng; ClickSubmit]))
     = true
  /\ error (ui (steps a [TypeText t; PickPosition lat lng; ClickSubmit]))
     = JNull
  /\ text (ui (steps a [TypeText t; PickPosition lat lng; ClickSubmit])) = t
  /\ outstanding (steps a [TypeText t; PickPosition lat lng; ClickSubmit])
     = S (outstanding a).
Proof.
  intros Hb Hl. apply badLength_false in Hl.
  unfold steps. cbn [fold_left step render ui apply busy]. rewrite Hb.
  unfold spawn, submit. cbn [ui render apply text picked language].
  rewrite Hl. run_async.
  cbn [ui sent pending apply busy error text]. unfold outstanding.
  cbn [pending]. rewrite filter_app, length_app. cbn.
  repeat split. lia.
Qed.

Lemma type_pick_submit_witness :
  sent (steps mounted
          [TypeText (lit "  Glas auf dem Radweg "); PickPosition 48.25 16.375;
           ClickSubmit])
  = sent mounted ++ [postRequest (lit "Glas auf dem Radweg") (48.25, 16.375)%float].
Proof.
  assert (Hl : (5 <= List.length (trim (lit "  Glas auf dem Radweg ")) <= 150)%nat)
    by (vm_compute; split; repeat constructor).
  exact (proj1 (@type_pick_submit mounted (lit "  Glas auf dem Radweg ")
                  48.25%float 16.375%float eq_refl Hl)).
Defined.

(** ** Which events send a POST *)

Section AllFetches.
Variable P : request -> Prop.

Lemma AllFetches_bind {A B : Type} (t : Task A) (f : A -> Task B) :
  AllFetches P t -> (forall a, AllFetches P (f a)) -> AllFetches P (bind t f).
Proof.
  intros Ht Hf. induction t as [a| |u k IH|r k IH]; cbn [bind AllFetches] in *.
  - apply Hf.
  - exact I.
  - apply IH, Ht.
  - split; [apply Ht|]. intro o. apply IH, Ht.
Qed.

Lemma AllFetches_tryCatch {A : Type} (t handler : Task A) :
  AllFetches P t -> AllFetches P handler -> AllFetches P (tryCatch t handler).
Proof.
  intros Ht Hh.
  induction t as [a| |u k IH|r k IH]; cbn [tryCatch AllFetches] in *.
  - exact I.
  - exact Hh.
  - apply IH, Ht.
  - split; [apply Ht|]. intro o. apply IH, Ht.
Qed.

Lemma AllFetches_tryFinally {A : Type} (t : Task A) (cleanup : Task unit) :
  AllFetches P t -> AllFetches P cleanup -> AllFetches P (tryFinally t cleanup).
Proof.
  intros Ht Hc.
  induction t as [a| |u k IH|r k IH]; cbn [tryFinally AllFetches] in *.
  - apply AllFetches_bind; [exact Hc|intros; exact I].
  - apply AllFetches_bind; [exact Hc|intros; exact I].
  - apply IH, Ht.
  - split; [apply Ht|]. intro o. apply IH, Ht.
Qed.
End AllFetches.

Lemma loadReports_gets (st : State) : AllFetches isGet (loadReports st).
Proof.
  unfold loadReports, fetch. cbn [bind AllFetches]. split; [reflexivity|].
  intros [|res]; cbn [bind AllFetches]; [exact I|].
  unfold resJson. destruct (body res) as [data|]; cbn [bind]; [|exact I].
  destruct (dataFilter data); exact I.
Qed.

Lemma loadEffect_gets (st : State) : AllFetches isGet (loadEffect st).
Proof.
  apply AllFetches_tryCatch; [apply loadReports_gets|exact I].
Qed.

(** Up to its first await [submit] either stops, having sent nothing, or
    has sent its POST; what is left of it sends list requests only. *)
Lemma exec_submit (st s : State) :
  match exec (submit st) s with
  | (_, None) =>
      badLength (trim (text st)) = true \/ picked st = None
  | (_, Some (q, k)) =>
      badLength (trim (text st)) = false
      /\ (exists p, picked st = Some p /\ q = postRequest (trim (text st)) p)
      /\ forall o, AllFetches isGet (k o)
  end.
Proof.
  unfold submit. run_async.
  destruct (badLength (trim (text st))); run_async; [now left|].
  destruct (picked st) as [p|]; run_async; [|now right].
  split; [reflexivity|]. split; [now exists p|]. intro o.
  apply AllFetches_tryFinally; [|exact I].
  apply AllFetches_tryCatch; [|exact I].
  apply AllFetches_bind; [destruct o; exact I|intro res].
  destruct (negb (ok res)).
  - apply AllFetches_bind; [|intros; exact I].
    apply AllFetches_tryCatch; [|exact I].
    unfold resJson. destruct (body res); exact I.
  - apply loadReports_gets.
Qed.

Lemma exec_gets (t : Task unit) (s : State) :
  AllFetches isGet t ->
  match snd (exec t s) with
  | None => True
  | Some (q, k) => isPost q = false /\ forall o, AllFetches isGet (k o)
  end.
Proof.
  revert s; induction t as [a| |u k IH|r k IH]; intros s Ht;
    cbn [exec snd AllFetches] in *; try exact I.
  - now apply IH.
  - exact Ht.
Qed.

Lemma posts_app (a : App) (l : list request) :
  List.length (filter isPost (sent a ++ l))
  = (posts a + List.length (filter isPost l))%nat.
Proof. unfold posts. now rewrite filter_app, length_app. Qed.

(** Starting or resuming a function that sends list requests only adds no
    POST and parks such a function again. *)
Lemma spawn_gets (o : origin) (t : Task unit) (a : App) :
  Forall getsOnly (pending a) -> AllFetches isGet t ->
  Forall getsOnly (pending (spawn o t a))
  /\ posts (spawn o t a) = posts a.
Proof.
  intros Hp Ht. pose proof (@exec_gets t (ui a) Ht) as H.
  unfold spawn. destruct (exec t (ui a)) as [s' [[q k]|]];
    cbn [snd pending] in *.
  - destruct H as [Hq Hk]. split.
    + apply Forall_app. split; [exact Hp|]. constructor; [|constructor].
      exact Hk.
    + unfold posts at 1. cbn [sent]. rewrite posts_app.
      cbn [filter]. rewrite Hq. cbn. lia.
  - split; [exact Hp|reflexivity].
Qed.

Lemma afterRender_gets (before : State) (a : App) :
  Forall getsOnly (pending a) ->
  Forall getsOnly (pending (afterRender before a))
  /\ posts (afterRender before a) = posts a.
Proof.
  intro H. unfold afterRender. destruct (streq _ _ && streq _ _); [easy|].
  apply spawn_gets; [exact H|apply loadEffect_gets].
Qed.

(** Every event but a click of the submit button keeps the number of
    POSTs, and a click adds one exactly when [clickPosts]. *)
Lemma step_posts (a : App) (e : event) :
  Forall getsOnly (pending a) ->
  Forall getsOnly (pending (step a e))
  /\ posts (step a e)
     = (posts a
        + match e with
          | ClickSubmit => if clickPosts (ui a) then 1 else 0
          | _ => 0
          end)%nat.
Proof.
  intro H.
  assert (Ha : forall before b,
             pending b = pending a -> posts b = posts a ->
             Forall getsOnly (pending (afterRender before b))
             /\ posts (afterRender before b) = (posts a + 0)%nat).
  { intros before b Hp Hn. rewrite Nat.add_0_r, <- Hn.
    apply afterRender_gets. now rewrite Hp. }
  destruct e; cbn [step];
    try (apply Ha; reflexivity);
    try (split; [exact H|now rewrite Nat.add_0_r]).
  - unfold clickPosts. destruct (busy (ui a)); cbn [negb andb].
    { split; [exact H|lia]. }
    pose proof (exec_submit (ui a) (ui a)) as Hs. unfold spawn.
    destruct (exec (submit (ui a)) (ui a)) as [s' [[q k]|]].
    + destruct Hs as (Hb & (p & Hp & ->) & Hk). rewrite Hb, Hp.
      cbn [negb pending]. split.
      * apply Forall_app. split; [exact H|]. constructor; [|constructor].
        exact Hk.
      * unfold posts at 1. cbn [sent]. rewrite posts_app. reflexivity.
    + cbn [pending]. split; [exact H|].
      destruct Hs as [-> | ->]; cbn [negb andb];
        [|rewrite andb_false_r]; unfold posts; cbn [sent]; lia.
  - destruct (activeFilters (ui a));
      [apply Ha; reflexivity|split; [exact H|now rewrite Nat.add_0_r]].
  - rewrite Nat.add_0_r.
    destruct (nth_error (pending a) i) as [[o k]|] eqn:E;
      [|split; [exact H|reflexivity]].
    assert (Hk : getsOnly (o, k)).
    { eapply Forall_forall; [exact H|]. eapply nth_error_In, E. }
    set (b := {| ui := ui a; pending := removeNth i (pending a);
                 sent := sent a; opened := opened a |}).
    assert (Hb : Forall getsOnly (pending b)) by now apply removeNth_Forall.
    destruct (@spawn_gets o (k r) b Hb (Hk r)) as [H1 H2].
    split; [exact H1|now rewrite H2].
Qed.

Lemma mounted_gets : Forall getsOnly (pending mounted).
Proof.
  apply (spawn_gets FromEffect); [constructor|apply loadEffect_gets].
Qed.

Lemma reachable_gets (a : App) : reachable a -> Forall getsOnly (pending a).
Proof.
  induction 1 as [|a e _ IH]; [apply mounted_gets|].
  now apply step_posts.
Qed.

(** X13: in every state the page can reach, an event adds a POST to what
    was sent exactly when it is a click on the enabled submit button with
    a text of valid trimmed length and a picked position, and then it adds
    one; no answer from the network, no filter change and no other event
    ever causes a POST, so nothing is posted twice. *)
Theorem post_only_on_accepted_click (a : App) (e : event) :
  reachable a ->
  posts (step a e)
  = (posts a
     + match e with
       | ClickSubmit => if clickPosts (ui a) then 1 else 0
       | _ => 0
       end)%nat.
Proof.
  intro H. apply step_posts. now apply reachable_gets.
Qed.

Lemma post_only_on_accepted_click_witness :
  posts (step submittingPage
           (Settle 1 (Resolved {| ok := true; body := None |})))
  = posts submittingPage
  /\ posts (step submittingPage ClickSubmit) = posts submittingPage.
Proof.
  assert (R : reachable submittingPage)
    by apply reachable_steps, reach_mounted.
  split.
  - rewrite (@post_only_on_accepted_click submittingPage
               (Settle 1 (Resolved {| ok := true; body := None |})) R).
    apply Nat.add_0_r.
  - reflexivity.
Defined.

(** ** The error cell *)

Lemma finalState_Act {A : Type} (u : update) (k : Task A)
  (net : nat -> fetch_result) (s : State) :
  finalState (run (Act u k) net s) = finalState (run k net (apply u s)).
Proof.
  cbn [run]. now destruct (run k net (apply u s)) as [[s' log] x].
Qed.

Lemma finalState_Fetch {A : Type} (r : request) (k : fetch_result -> Task A)
  (net : nat -> fetch_result) (s : State) :
  finalState (run (Fetch r k) net s)
  = finalState (run (k (net O)) (fun n => net (S n)) s).
Proof.
  cbn [run].
  now destruct (run (k (net O)) (fun n => net (S n)) s) as [[s' log] x].
Qed.

(** A function either ends with an error of its own, whatever the state
    it started from, or leaves the error it found. *)
Lemma run_error_cases {A : Type} (t : Task A) (net : nat -> fetch_result) :
  (exists e, forall s, error (finalState (run t net s)) = e)
  \/ (forall s, error (finalState (run t net s)) = error s).
Proof.
  revert net; induction t as [a| |u k IH|r k IH]; intro net.
  - now right.
  - now right.
  - destruct (IH net) as [[e He]|He].
    + left. exists e. intro s. now rewrite finalState_Act.
    + destruct u as [l|x|p|l|e|b|c|x|x];
        try (right; intro s; now rewrite finalState_Act, He).
      left. exists e. intro s. now rewrite finalState_Act, He.
  - destruct (IH (net O) (fun n => net (S n))) as [[e He]|He].
    + left. exists e. intro s. now rewrite finalState_Fetch.
    + right. intro s. now rewrite finalState_Fetch.
Qed.

(** X17: the error [submit] ends with never depends on the error that
    was on display before: every attempt starts by clearing it.  When the
    POST is accepted and the reload succeeds, no error is left. *)
Theorem submit_clears_old_error
  (st s s' : State) (net : nat -> fetch_result) :
  (error (finalState (run (submit st) net s))
   = error (finalState (run (submit st) net
              (apply (SetError (error s')) s))))
  /\ (submissionSucceeds st net = true ->
      loadFails (net 1%nat) = false ->
      error (finalState (run (submit st) net s)) = JNull).
Proof.
  split.
  - unfold submit. cbn [bind setError]. rewrite !finalState_Act.
    reflexivity.
  - unfold submissionSucceeds, loadFails. intros Hs Hf.
    destruct (badLength (trim (text st))) eqn:Hb; [discriminate|].
    destruct (picked st) as [p|] eqn:Hp; [|discriminate].
    unfold submit. rewrite Hb, Hp. run_async.
    destruct (net O) as [|[o b]]; [discriminate|]. cbn [ok negb andb] in Hs.
    subst o. run_async.
    destruct (net 1%nat) as [|[o1 [data|]]]; try discriminate.
    cbn [body] in Hf. run_async.
    destruct (dataFilter data); [reflexivity|discriminate].
Qed.

Lemma submit_clears_old_error_witness :
  error (finalState (run (submit glassDraft) accepting
                         (apply (SetError (JStr (lit "old"))) glassDraft)))
  = JNull.
Proof.
  exact (proj2 (@submit_clears_old_error glassDraft
                  (apply (SetError (JStr (lit "old"))) glassDraft)
                  glassDraft accepting) eq_refl eq_refl).
Defined.

(** ** The category on display *)

Lemma existsb_streq (c : jsstring) (l : list jsstring) :
  existsb (streq c) l = true <-> In c l.
Proof.
  rewrite existsb_exists. split.
  - intros (x & Hx & E). apply streq_eq in E. now subst.
  - intro H. exists c. split; [exact H|apply streq_refl].
Qed.

(** X15: what the list and the popups show for a category that is not a
    property name of [Object.prototype]: in German always the category as
    stored; in English the display name of each of the five labels and
    the category as stored for anything else.  What is shown for a
    non-empty category is never empty. *)
Theorem translatedCategory_display (c : jsstring) :
  ~ In c objectPrototypeKeys ->
  translatedCategory de c = Some c
  /\ (In c reportCategoryLabels ->
      getOwn c (categoryTranslations en) = translatedCategory en c
      /\ translatedCategory en c <> None)
  /\ (~ In c reportCategoryLabels -> translatedCategory en c = Some c)
  /\ (forall l, c <> [] -> translatedCategory l c <> Some []).
Proof.
  intro Hp.
  assert (Hk : existsb (streq c) objectPrototypeKeys = false).
  { destruct (existsb (streq c) objectPrototypeKeys) eqn:E; [|reflexivity].
    apply existsb_streq in E. contradiction. }
  assert (Hde : translatedCategory de c = Some c).
  { unfold translatedCategory. rewrite Hk.
    cbn [categoryTranslations getOwn].
    repeat match goal with
      | |- context [streq ?k c] =>
          let E := fresh "E" in
          destruct (streq k c) eqn:E;
          [apply streq_eq in E; subst c; reflexivity|]
      end.
    reflexivity. }
  assert (Hen : ~ In c reportCategoryLabels ->
                translatedCategory en c = Some c).
  { intro Hn. unfold translatedCategory. rewrite Hk.
    destruct (getOwn c (categoryTranslations en)) eqn:E; [|reflexivity].
    exfalso. apply Hn.
    assert (Hin : In c (map fst (categoryTranslations en)))
      by (apply getOwn_In; rewrite E; discriminate).
    revert Hin. unfold reportCategoryLabels.
    cbn [In map fst categoryTranslations]. tauto. }
  split; [exact Hde|split; [|split; [exact Hen|]]].
  - intro Hin. unfold reportCategoryLabels in Hin. cbn [In] in Hin.
    destruct Hin as [<-|[<-|[<-|[<-|[<-|[]]]]]];
      (split; [reflexivity|discriminate]).
  - intros l Hc. destruct l; [|rewrite Hde; congruence].
    destruct (in_dec (list_eq_dec N.eq_dec) c reportCategoryLabels) as [Hin|Hn].
    + unfold reportCategoryLabels in Hin. cbn [In] in Hin.
      destruct Hin as [<-|[<-|[<-|[<-|[<-|[]]]]]]; discriminate.
    + rewrite (Hen Hn). congruence.
Qed.

Lemma translatedCategory_display_witness :
  translatedCategory de (lit "Baustelle") = Some (lit "Baustelle")
  /\ translatedCategory en (lit "Baustelle") = Some (lit "Baustelle").
Proof.
  assert (Hp : ~ In (lit "Baustelle") objectPrototypeKeys).
  { intro H. vm_compute in H.
    repeat (destruct H as [H|H]; [discriminate H|]). exact H. }
  assert (Hn : ~ In (lit "Baustelle") reportCategoryLabels).
  { intro H. vm_compute in H.
    repeat (destruct H as [H|H]; [discriminate H|]). exact H. }
  pose proof (@translatedCategory_display (lit "Baustelle") Hp) as H.
  exact (conj (proj1 H) (proj1 (proj2 (proj2 H)) Hn)).
Defined.

(** ** Answers that arrive out of order *)

Lemma exec_loadEffect_cont (st s : State) :
  exec (loadEffect st) s = (s, Some (listRequest st, loadCont st)).
Proof. reflexivity. Qed.

(** Once answered, the effect finishes; it leaves the filter alone. *)
Lemma exec_loadCont (st s : State) (o : fetch_result) :
  exists s',
    exec (loadCont st o) s = (s', None)
    /\ filterCategory s' = filterCategory s.
Proof.
  unfold loadCont. destruct o as [|[okb [data|]]]; run_async;
    try (eexists; split; reflexivity).
  unfold resJson. cbn [body]. run_async.
  destruct (dataFilter data); run_async; eexists; split; reflexivity.
Qed.

Lemma exec_loadCont_ok (st s : State) (okb : bool) (data : json)
  (kept : list json) :
  dataFilter data = Some kept ->
  exec (loadCont st (Resolved {| ok := okb; body := Some data |})) s
  = (apply (SetReports kept) s, None).
Proof.
  intro H. unfold loadCont, resJson. cbn [body]. run_async.
  rewrite H. reflexivity.
Qed.

Lemma step_select (a : App) (c : jsstring) :
  streq (filterCategory (ui a)) c = false ->
  step a (SelectCategory c)
  = {| ui := apply (SetFilterCategory c) (ui a);
       pending := pending a
                  ++ [(FromEffect,
                       loadCont (apply (SetFilterCategory c) (ui a)))];
       sent := sent a ++ [listRequest (apply (SetFilterCategory c) (ui a))];
       opened := opened a |}.
Proof.
  intro H. cbn [step]. unfold afterRender.
  cbn [render ui apply filterCategory]. rewrite H. cbn [andb].
  unfold spawn. cbn [ui]. rewrite exec_loadEffect_cont. reflexivity.
Qed.

Lemma nth_error_last {A : Type} (l : list A) (x : A) :
  nth_error (l ++ [x]) (List.length l) = Some x.
Proof. induction l; cbn; auto. Qed.

Lemma removeNth_last {A : Type} (l : list A) (x : A) :
  removeNth (List.length l) (l ++ [x]) = l.
Proof. induction l as [|y l IH]; cbn; [reflexivity|now rewrite IH]. Qed.

Lemma step_settle_last (u : State) (l : list (origin * Cont))
  (o : origin) (k : Cont) (sn op : list request) (r : fetch_result) :
  step {| ui := u; pending := l ++ [(o, k)]; sent := sn; opened := op |}
       (Settle (List.length l) r)
  = spawn o (k r) {| ui := u; pending := l; sent := sn; opened := op |}.
Proof.
  cbn [step pending ui sent opened].
  now rewrite nth_error_last, removeNth_last.
Qed.

(** X16: answers are applied in the order they arrive.  When the
    category is changed twice and the second list request is answered
    before the first, the reports on display end up being the answer to
    the first request, while the filter shows the second category. *)
Theorem stale_answer_wins
  (a : App) (c1 c2 : jsstring) (okb : bool) (items kept : list json)
  (r2 : fetch_result) :
  streq (filterCategory (ui a)) c1 = false ->
  streq c1 c2 = false ->
  dataFilter (JArr items) = Some kept ->
  let n := List.length (pending a) in
  let a' :=
    steps a [ SelectCategory c1; SelectCategory c2; Settle (S n) r2;
              Settle n (Resolved {| ok := okb; body := Some (JArr items) |}) ]
  in
  reports (ui a') = kept
  /\ filterCategory (ui a') = c2
  /\ pending a' = pending a
  /\ sent a'
     = sent a
       ++ [ listRequest (apply (SetFilterCategory c1) (ui a));
            listRequest (apply (SetFilterCategory c2)
                           (apply (SetFilterCategory c1) (ui a))) ].
Proof.
  intros H1 H2 Hk n a'.
  assert (E : exists s2,
             filterCategory s2 = c2
             /\ a' = {| ui := apply (SetReports kept) s2;
                        pending := pending a;
                        sent := (sent a
                                 ++ [listRequest
                                       (apply (SetFilterCategory c1) (ui a))])
                                ++ [listRequest
                                      (apply (SetFilterCategory c2)
                                         (apply (SetFilterCategory c1) (ui a)))];
                        opened := opened a |}).
  { subst a'. unfold steps. cbn [fold_left].
    rewrite (@step_select a c1 H1).
    rewrite step_select by exact H2.
    cbn [ui pending sent opened].
    replace (S n)
      with (List.length
              (pending a
               ++ [(FromEffect,
                    loadCont (apply (SetFilterCategory c1) (ui a)))]))
      by (rewrite length_app; cbn; subst n; lia).
    rewrite step_settle_last. unfold spawn at 1. cbn [ui].
    match goal with |- context [exec (loadCont ?st r2) ?s] =>
      destruct (exec_loadCont st s r2) as (s2 & -> & Hf2) end.
    cbn [pending sent opened]. subst n. rewrite step_settle_last.
    unfold spawn. cbn [ui]. erewrite exec_loadCont_ok by exact Hk.
    exists s2. split; [exact Hf2|reflexivity]. }
  destruct E as (s2 & Hf2 & ->).
  cbn [ui pending sent reports apply filterCategory].
  rewrite <- app_assoc. repeat split. exact Hf2.
Qed.

Lemma stale_answer_wins_witness :
  reports (ui (steps mounted
                 [ SelectCategory (lit "Hindernis");
                   SelectCategory (lit "Gefahrenstelle");
                   Settle 2 (Resolved {| ok := true; body := Some (JArr []) |});
                   Settle 1 (Resolved {| ok := true;
                                         body := Some (JArr [spamReport;
                                                             obstacleReport]) |}) ]))
  = [obstacleReport]
  /\ filterCategory
       (ui (steps mounted
              [ SelectCategory (lit "Hindernis");
                SelectCategory (lit "Gefahrenstelle");
                Settle 2 (Resolved {| ok := true; body := Some (JArr []) |});
                Settle 1 (Resolved {| ok := true;
                                      body := Some (JArr [spamReport;
                                                          obstacleReport]) |}) ]))
     = lit "Gefahrenstelle".
Proof.
  pose proof (@stale_answer_wins mounted (lit "Hindernis")
                (lit "Gefahrenstelle") true [spamReport; obstacleReport]
                [obstacleReport]
                (Resolved {| ok := true; body := Some (JArr []) |})
                eq_refl eq_refl eq_refl) as H.
  exact (conj (proj1 H) (proj1 (proj2 H))).
Defined.

(** ** What the functions read of an answer *)

(** X18: [loadReports] never looks at the status of the answer: with the
    same body, an answer with an error status is handled exactly like an
    OK one.  An answer whose body is a JSON object, such as an error
    body with a [detail], makes the effect's load fail with the
    load-error message, the reports kept and the [detail] not shown. *)
Theorem loadReports_ignores_status
  (st s : State) (okb okb' : bool) (b : option json)
  (members : list (jsstring * json)) (rest : nat -> fetch_result) :
  run (loadEffect st)
      (andThen (Resolved {| ok := okb; body := b |}) rest) s
  = run (loadEffect st)
        (andThen (Resolved {| ok := okb'; body := b |}) rest) s
  /\ finalState
       (run (loadEffect st)
            (andThen (Resolved {| ok := okb; body := Some (JObj members) |})
                     rest) s)
     = apply (SetError (JStr (errorLoadReports (translations (language st)))))
             s.
Proof.
  unfold loadEffect, loadReports, andThen. run_async. unfold resJson.
  cbn [body]. split; reflexivity.
Qed.

(** X19: on an accepted POST, [submit] never reads the body of the
    answer: whatever report the backend returns, or none, the state and
    the requests that follow are the same; the list is refreshed by the
    reload alone. *)
Theorem submit_ignores_created_report
  (st s : State) (b b' : option json) (rest : nat -> fetch_result) :
  run (submit st) (andThen (Resolved {| ok := true; body := b |}) rest) s
  = run (submit st) (andThen (Resolved {| ok := true; body := b' |}) rest) s.
Proof.
  unfold submit. run_async.
  destruct (badLength (trim (text st))); [reflexivity|].
  destruct (picked st) as [p|]; [|reflexivity].
  run_async. reflexivity.
Qed.
